(** * face2phrase: the browser client, embedded and checked against its specification

    The development follows the JavaScript sources of the front end:

    - [utils/auth.js]                     →  [Module Auth]
    - [components/Dashboard] (overview)   →  [Module Dashboard]
    - [components/InterviewInterface.js]  →  [Module Interview]
    - [AnalysisDashboard.js]              →  [Module Analysis]
    - [AcousticVisualization]             →  [Module Acoustic]

    Conventions.  A JavaScript [Number] is an IEEE-754 binary64 value and is
    modelled by Rocq's primitive [float]; counts and indices are [nat];
    instants are milliseconds since the epoch in [Z] (what [Date.now()] and
    [Date.prototype.valueOf] return).  [localStorage] is a finite map from
    keys to cells.  React state is a record, event handlers are functions on
    it, and everything asynchronous (fetch, timers, MediaRecorder callbacks)
    is an event that the environment delivers later, together with the values
    the JavaScript closure captured when the work was started. *)

From Stdlib Require Import ZArith Floats List Lia.
From Stdlib Require Uint63.
From stdpp Require Import base option list gmap strings pretty.
From coqutil Require Import Datatypes.RecordSetters.
Import TriangleBracketNotations.

Local Open Scope Z_scope.

(** ** JavaScript numbers *)

Module JS.

(** Array lengths and counters enter arithmetic as Numbers. *)
Definition of_nat (n : nat) : float :=
  PrimFloat.of_uint63 (Uint63.of_Z (Z.of_nat n)).

(** ToBoolean on a Number: [0], [-0] and [NaN] are falsy. *)
Definition truthy (x : float) : bool :=
  negb (PrimFloat.eqb x 0%float || PrimFloat.is_nan x).

(** The result of [Math.round]: an integral Number, an infinity or NaN. *)
Inductive integral :=
| NaN
| Infinite (negative : bool)
| Int (z : Z).

(** [Math.round x] is the integral Number closest to [x], ties going
    towards +∞, that is ⌊x + 1/2⌋ computed on the exact value m·2^e of
    the double. *)
Definition round (x : float) : integral :=
  match Prim2SF x with
  | S754_nan => NaN
  | S754_infinity s => Infinite s
  | S754_zero _ => Int 0
  | S754_finite s m e =>
      let n := if s then Z.neg m else Z.pos m in
      if 0 <=? e then Int (n * 2 ^ e)
      else Int ((2 * n + 2 ^ (- e)) / 2 ^ (- e + 1))
  end.

(** A double that is neither a zero nor NaN: finite and non-zero, or an
    infinity. *)
Definition nonzero_number (x : spec_float) : Prop :=
  match x with
  | S754_finite _ _ _ | S754_infinity _ => True
  | S754_zero _ | S754_nan => False
  end.

(** Values that reach the page through a property chain such as
    [report?.pitch_analysis?.mean_pitch]. *)
Inductive value :=
| Undefined
| Null
| Bool (b : bool)
| Num (x : float)
| Str (s : string).

Definition truthy_value (v : value) : bool :=
  match v with
  | Undefined | Null => false
  | Bool b => b
  | Num x => truthy x
  | Str s => negb (String.eqb s "")
  end.

(** [a || b] *)
Definition or (a b : value) : value :=
  if truthy_value a then a else b.

(** [a || b] where the left operand is a Number or missing. *)
Definition num_or (a : option float) (b : float) : float :=
  match a with
  | Some x => if truthy x then x else b
  | None => b
  end.

(** [a || b] where the left operand is a string or missing. *)
Definition str_or (a : option string) (b : string) : string :=
  match a with
  | Some s => if String.eqb s "" then b else s
  | None => b
  end.

End JS.

(** ** Data that travels between the components *)

(** The payload of [GET /api/acoustic-features/:session/:index], as
    [AcousticVisualization] reads it.  Array elements that JSON delivers as
    [null] are [None]. *)
Record pitch_features := {
  pitch_time : option (list float);
  pitch_values : option (list (option float))
}.

Record energy_features := {
  energy_time : option (list float);
  energy_rms : option (list (option float))
}.

Record spectral_features := {
  spectral_time : option (list float);
  spectral_centroid : option (list (option float));
  spectral_zcr : option (list float)
}.

Record time_series := {
  series_time : option (list float);
  series_amplitude : option (list (option float))
}.

Record acoustic_features := {
  pitch : option pitch_features;
  energy : option energy_features;
  spectral : option spectral_features;
  time_series_ : option time_series
}.

Record acoustic_summary := {
  summary_mean_pitch : JS.value;
  summary_mean_energy : JS.value;
  summary_duration : option float;
  summary_pitch_stability : option string
}.

Record acoustic_data := {
  features : option acoustic_features;
  summary : option acoustic_summary
}.

(** A user as [auth.js] stores it. *)
Record user := {
  id : string;
  username : string;
  password : string;
  email : string;
  fullName : string;
  role : string;
  createdAt : Z;
  lastLogin : option Z
}.

(** The [user] object inside the auth session. *)
Record session_user := {
  su_id : string;
  su_username : string;
  su_email : string;
  su_fullName : string;
  su_role : string
}.

Record authData := {
  auth_user : session_user;
  loginTime : Z;
  expiresAt : Z
}.

(** An entry of ['sessionHistory'], written by [InterviewInterface]. *)
Record sessionData := {
  sd_sessionId : option string;
  sd_position : string;
  sd_timestamp : Z;
  sd_questions : nat;
  sd_acousticData : gmap nat acoustic_data
}.

(** An entry of ['interview_history'], read by the overview dashboard. *)
Record history_entry := {
  iv_sessionId : option string;
  iv_position : string;
  iv_date : string;
  iv_score : option float;
  iv_questions : nat
}.

(** ** localStorage

    Every value is a string; the application only ever stores
    [JSON.stringify] of one of four shapes.  A cell is the value that
    [JSON.parse] gives back, or text that [JSON.parse] rejects.  ISO-8601
    strings stand for the instant they denote: [toISOString] and
    [new Date(string)] are inverse to each other on valid dates. *)
Inductive cell :=
| CUsers (us : list user)
| CAuth (a : authData)
| CSessionHistory (h : list sessionData)
| CInterviewHistory (h : list history_entry)
| CText (s : string).

Abbreviation storage := (gmap string cell).

(** The outcome of [JSON.parse] and of what follows it in a [try] block. *)
Inductive outcome (A : Type) :=
| Returned (a : A)
| Thrown.
Arguments Returned {A} a.
Arguments Thrown {A}.

(** Which shape the application stores under which key.  Text that is not
    JSON can sit anywhere. *)
Definition shape_ok (k : string) (c : cell) : bool :=
  match c with
  | CUsers _ => bool_decide (k = "face2phrase_users")
  | CAuth _ => bool_decide (k = "face2phrase_auth")
  | CSessionHistory _ => bool_decide (k = "sessionHistory")
  | CInterviewHistory _ => bool_decide (k = "interview_history")
  | CText _ => true
  end.

Definition well_shaped (st : storage) : Prop :=
  map_Forall (λ k c, shape_ok k c = true) st.

(** ** utils/auth.js *)

Module Auth.

Definition AUTH_KEY : string := "face2phrase_auth".
Definition USERS_KEY : string := "face2phrase_users".

(** What [getUsers] hands to its callers: an array of users, or a parsed
    value of some other shape, on which the array methods are missing. *)
Inductive users_value :=
| UsersArray (users : list user)
| NotAnArray.

(** [getUsers]: a missing key and the empty string are falsy and give
    [[]]; text that does not parse lands in the [catch] and gives [[]]. *)
Definition getUsers (st : storage) : users_value :=
  match st !! USERS_KEY with
  | None => UsersArray []
  | Some (CUsers users) => UsersArray users
  | Some (CText _) => UsersArray []
  | Some _ => NotAnArray
  end.

(** [saveUser]: replace the first user with the same id, or append.  On a
    non-array [findIndex] is not a function; the [catch] returns [false]
    and nothing is written. *)
Definition saveUser (u : user) (st : storage) : storage * bool :=
  match getUsers st with
  | UsersArray users =>
      let users' :=
        match list_find (λ v, id v = id u) users with
        | Some (existingIndex, _) => <[existingIndex := u]> users
        | None => users ++ [u]
        end in
      (<[USERS_KEY := CUsers users']> st, true)
  | NotAnArray => (st, false)
  end.

Definition defaultUser (now : Z) : user :=
  {| id := "1";
     username := "admin";
     password := "admin123";
     email := "admin@face2phrase.com";
     fullName := "Administrator";
     role := "admin";
     createdAt := now;
     lastLogin := None |}.

Definition initializeDefaultUser (now : Z) (st : storage) : storage :=
  match getUsers st with
  | UsersArray [] => (saveUser (defaultUser now) st).1
  | _ => st
  end.

(** The clock readings of one [loginUser] call, in program order:
    [new Date()] in [initializeDefaultUser], [new Date()] for
    [lastLogin], [new Date()] for [loginTime], [Date.now()] for
    [expiresAt]. *)
Record clock := {
  at_createdAt : Z;
  at_lastLogin : Z;
  at_loginTime : Z;
  at_expiresAt : Z
}.

Inductive login_result :=
| success (u : session_user)
| failure (error : string).

Definition DAY : Z := 24 * 60 * 60 * 1000.

Definition loginUser (name pass : string) (clk : clock) (st : storage)
  : storage * login_result :=
  let st1 := initializeDefaultUser (at_createdAt clk) st in
  match getUsers st1 with
  | NotAnArray => (st1, failure "users.find is not a function")
  | UsersArray users =>
      match list_find (λ u, username u = name ∧ password u = pass) users with
      | Some (_, u) =>
          let u' :=
            {| id := id u; username := username u; password := password u;
               email := email u; fullName := fullName u; role := role u;
               createdAt := createdAt u;
               lastLogin := Some (at_lastLogin clk) |} in
          let st2 := (saveUser u' st1).1 in
          let a :=
            {| auth_user :=
                 {| su_id := id u'; su_username := username u';
                    su_email := email u'; su_fullName := fullName u';
                    su_role := role u' |};
               loginTime := at_loginTime clk;
               expiresAt := at_expiresAt clk + DAY |} in
          (<[AUTH_KEY := CAuth a]> st2, success (auth_user a))
      | None => (st1, failure "Invalid username or password")
      end
  end.

Definition logoutUser (st : storage) : storage := delete AUTH_KEY st.

(** The argument of [registerUser]. *)
Record userData := {
  new_username : string;
  new_password : string;
  new_email : string;
  new_fullName : string
}.

Inductive register_result :=
| registered (u : user)
| not_registered (error : string).

(** [registerUser]; [now_id] is the reading of [Date.now()], whose decimal
    digits become the id, [now_created] that of [new Date()].  The value
    that [saveUser] returns is not looked at. *)
Definition registerUser (data : userData) (now_id now_created : Z) (st : storage)
  : storage * register_result :=
  match getUsers st with
  | NotAnArray => (st, not_registered "users.find is not a function")
  | UsersArray users =>
      match list_find (λ u, username u = new_username data) users with
      | Some _ => (st, not_registered "Username already exists")
      | None =>
          match list_find (λ u, email u = new_email data) users with
          | Some _ => (st, not_registered "Email already exists")
          | None =>
              let newUser :=
                {| id := pretty now_id;
                   username := new_username data;
                   password := new_password data;
                   email := new_email data;
                   fullName := new_fullName data;
                   role := "user";
                   createdAt := now_created;
                   lastLogin := None |} in
              ((saveUser newUser st).1, registered newUser)
          end
      end
  end.

(** What [getCurrentUser] returns: [null], the session's user, or
    [undefined] when the parsed value has no [user] property. *)
Inductive current_user :=
| null
| current (u : session_user)
| undefined.

(** [getCurrentUser] at the instant [now].  A parsed value without
    [expiresAt] gives an invalid date, [now > expiresAt] is then false and
    the missing [user] property is returned. *)
Definition getCurrentUser (now : Z) (st : storage) : storage * current_user :=
  match st !! AUTH_KEY with
  | None => (st, null)
  | Some (CText s) =>
      if String.eqb s "" then (st, null) else (logoutUser st, null)
  | Some (CAuth a) =>
      if expiresAt a <? now then (logoutUser st, null)
      else (st, current (auth_user a))
  | Some _ => (st, undefined)
  end.

Definition isAuthenticated (now : Z) (st : storage) : storage * bool :=
  let '(st', u) := getCurrentUser now st in
  (st', match u with null => false | _ => true end).

End Auth.

(** ** The overview dashboard (reads ['interview_history']) *)

Module Dashboard.

Record state := {
  user : Auth.current_user;
  interviewHistory : list history_entry
}.

(** [JSON.parse(localStorage.getItem('interview_history') || '[]')] *)
Definition readHistory (st : storage) : outcome (list history_entry) :=
  match st !! "interview_history" with
  | None => Returned []
  | Some (CInterviewHistory h) => Returned h
  | Some (CText s) => if String.eqb s "" then Returned [] else Thrown
  | Some _ => Thrown
  end.

(** The mount effect: [getCurrentUser()], then the history. *)
Definition mount (now : Z) (st : storage) : storage * outcome state :=
  let '(st', u) := Auth.getCurrentUser now st in
  match readHistory st' with
  | Returned h => (st', Returned {| user := u; interviewHistory := h |})
  | Thrown => (st', Thrown)
  end.

(** [interviewHistory.reduce((acc, curr) => acc + (curr.score || 75), 0)] *)
Definition scoreSum (h : list history_entry) : float :=
  fold_left (λ acc (curr : history_entry), (acc + JS.num_or (iv_score curr) 75)%float) h 0%float.

Record stats := {
  totalInterviews : nat;
  averageScore : option JS.integral;   (* [None] is shown as 'N/A' *)
  timePracticed : JS.integral
}.

Definition computeStats (h : list history_entry) : stats :=
  {| totalInterviews := length h;
     averageScore :=
       if (0 <? length h)%nat
       then Some (JS.round (scoreSum h / JS.of_nat (length h))%float)
       else None;
     timePracticed := JS.round (JS.of_nat (length h) * 15)%float |}.

(** [interviewHistory.slice(-5).reverse()] *)
Definition recentInterviews (h : list history_entry) : list history_entry :=
  rev (drop (length h - 5) h).

(** Everything the page shows that depends on the history. *)
Definition view (s : state) : stats * list history_entry :=
  (computeStats (interviewHistory s), recentInterviews (interviewHistory s)).

End Dashboard.


(** ** components/InterviewInterface.js *)

Module Interview.

Local Open Scope nat_scope.

Inductive step_name := form | interview | processing | results.

#[global] Instance step_name_eq_dec : EqDecision step_name.
Proof. solve_decision. Defined.

Record formData := {
  name : string;
  email : string;
  position : string;
  experience : string;
  jd : string
}.

(** One [dataavailable] payload: its byte size and the media time it
    covers.  The component reads only the size. *)
Record chunk := {
  chunk_size : nat;
  chunk_millis : nat
}.

(** [new Blob(chunksRef.current, ...)] *)
Definition blob := list chunk.


(** What a [fetch] followed by [response.json()] settles to: a parsed body
    together with the HTTP status, or a rejection (network failure, body
    that is not JSON) with its message. *)
Inductive reply (A : Type) :=
| Json (status : nat) (data : A)
| Rejected (message : string).
Arguments Json {A} status data.
Arguments Rejected {A} message.

(** [response.ok] *)
Definition ok (status : nat) : bool := (200 <=? status)%nat && (status <=? 299)%nat.

(** What the component does to the outside world, oldest first. *)
Inductive effect :=
| POST_generate_questions (body : formData)
| POST_upload_video (session_id : option string) (question_index : nat) (video : blob)
| GET_acoustic_features (session_id : option string) (question_index : nat)
| POST_finalize (session_id : option string)
| alert (message : string)
| console_log (message : string)
| console_error (message : string)
| onSessionComplete.

(** The values that [mediaRecorder.onstop] closes over: the render in which
    [startRecording] ran fixes [currentQuestionIndex], and through
    [uploadVideo] and [loadAcousticFeatures] also [sessionId]. *)
Record recorder := {
  onstop_questionIndex : nat;
  onstop_sessionId : option string
}.

(** The values that the continuation of [finalizeInterview] closes over. *)
Record finalize_closure := {
  fc_sessionId : option string;
  fc_position : string;
  fc_questions : nat;
  fc_acousticData : gmap nat acoustic_data
}.

(** The twelve [useState] cells, the refs, [localStorage], the asynchronous
    work in flight and the effects so far. *)
Record state := {
  step : step_name;
  form_data : formData;
  questions : list string;
  currentQuestionIndex : nat;
  isRecording : bool;
  recordedVideos : gmap nat blob;
  sessionId : option string;
  isGeneratingQuestions : bool;
  isUploading : bool;
  recordingTime : nat;
  processingProgress : nat;
  acousticData : gmap nat acoustic_data;
  (* refs *)
  mediaRecorder : option recorder;
  chunks : list chunk;
  (* browser *)
  localStorage : storage;
  (* in flight *)
  stopping : bool;                                  (* [stop()] called, events not yet delivered *)
  uploads : list (option string * nat);             (* pending upload requests *)
  acoustic_timers : list (option string * nat);     (* [setTimeout(..., 3000)] *)
  acoustic_loads : list nat;                        (* pending feature requests *)
  progressInterval : bool;                          (* [setInterval(..., 2000)] *)
  finalizing : option finalize_closure;             (* pending finalize request *)
  results_timer : bool;                             (* [setTimeout(..., 500)] *)
  (* trace *)
  log : list effect
}.

Definition initial (user_full_name user_email : string) (st : storage) : state :=
  {| step := form;
     form_data := {| name := user_full_name; email := user_email;
                     position := ""; experience := ""; jd := "" |};
     questions := [];
     currentQuestionIndex := 0;
     isRecording := false;
     recordedVideos := ∅;
     sessionId := None;
     isGeneratingQuestions := false;
     isUploading := false;
     recordingTime := 0;
     processingProgress := 0;
     acousticData := ∅;
     mediaRecorder := None;
     chunks := [];
     localStorage := st;
     stopping := false;
     uploads := [];
     acoustic_timers := [];
     acoustic_loads := [];
     progressInterval := false;
     finalizing := None;
     results_timer := false;
     log := [] |}.

Definition emit (e : effect) (s : state) : state := s <| log ::= (λ l, l ++ [e]) |>.

(** Remove the first occurrence: one request or timer has completed. *)
Fixpoint remove_first `{EqDecision A} (x : A) (l : list A) : list A :=
  match l with
  | [] => []
  | y :: l' => if decide (x = y) then l' else y :: remove_first x l'
  end.

(** *** Handlers *)

(** The button is [disabled] while a request is running or a required field
    is empty. *)
Definition generate_disabled (s : state) : bool :=
  isGeneratingQuestions s
  || String.eqb (name (form_data s)) ""
  || String.eqb (email (form_data s)) ""
  || String.eqb (position (form_data s)) "".

(** [generateQuestions], up to the first [await]. *)
Definition generateQuestions (s : state) : state :=
  emit (POST_generate_questions (form_data s)) (s <| isGeneratingQuestions := true |>).

(** [generateQuestions], from the [await] on. *)
Definition generateQuestions_settled (r : reply (list string * option string)) (s : state) : state :=
  let s' :=
    match r with
    | Json _ (qs, sid) =>
        s <| questions := qs |> <| sessionId := sid |> <| step := interview |>
    | Rejected message =>
        emit (alert ("Error generating questions: " ++ message)) s
    end in
  s' <| isGeneratingQuestions := false |>.

(** [startRecording]: [camera] is what [getUserMedia] settles to ([Json] for
    a stream, whose status and data carry nothing).  With a stream the chunk
    buffer is emptied, a recorder is created whose [onstop] captures the
    current render, and recording starts.  The click and the settlement of
    [getUserMedia] are taken together: this is the run in which nothing
    else happens while the camera is being opened. *)
Definition startRecording (camera : reply unit) (s : state) : state :=
  match camera with
  | Json _ _ =>
      s <| chunks := [] |>
        <| mediaRecorder := Some {| onstop_questionIndex := currentQuestionIndex s;
                                    onstop_sessionId := sessionId s |} |>
        <| isRecording := true |>
  | Rejected message => emit (alert ("Error accessing camera: " ++ message)) s
  end.

(** [ondataavailable] *)
Definition ondataavailable (c : chunk) (s : state) : state :=
  if (0 <? chunk_size c)%nat then s <| chunks ::= (λ l, l ++ [c]) |> else s.

(** [stopRecording]; leaving recording also resets the timer (the effect on
    [isRecording]). *)
Definition stopRecording (s : state) : state :=
  match mediaRecorder s with
  | Some _ =>
      if isRecording s
      then s <| stopping := true |> <| isRecording := false |> <| recordingTime := 0 |>
      else s
  | None => s
  end.

(** [uploadVideo], up to the first [await]. *)
Definition uploadVideo (sid : option string) (b : blob) (questionIndex : nat) (s : state) : state :=
  emit (POST_upload_video sid questionIndex b)
       (s <| isUploading := true |> <| uploads ::= (λ l, l ++ [(sid, questionIndex)]) |>).

(** [mediaRecorder.onstop] *)
Definition onstop (r : recorder) (s : state) : state :=
  let b : blob := chunks s in
  uploadVideo (onstop_sessionId r) b (onstop_questionIndex r)
    (s <| stopping := false |>
       <| recordedVideos ::= <[onstop_questionIndex r := b]> |>).

(** [uploadVideo], from the [await] on.  Any body that parses counts as
    success; the status is not looked at. *)
Definition uploadVideo_settled (sid : option string) (questionIndex : nat)
    (r : reply string) (s : state) : state :=
  let s' :=
    match r with
    | Json _ data =>
        emit (console_log ("Upload successful: " ++ data)) s
          <| acoustic_timers ::= (λ l, l ++ [(sid, questionIndex)]) |>
    | Rejected message =>
        emit (alert ("Error uploading video: " ++ message))
          (emit (console_error ("Upload error: " ++ message)) s)
    end in
  s' <| isUploading := false |> <| uploads ::= remove_first (sid, questionIndex) |>.

(** [loadAcousticFeatures], up to the [await]. *)
Definition loadAcousticFeatures (sid : option string) (questionIndex : nat) (s : state) : state :=
  emit (GET_acoustic_features sid questionIndex)
       (s <| acoustic_timers ::= remove_first (sid, questionIndex) |>
          <| acoustic_loads ::= (λ l, l ++ [questionIndex]) |>).

(** [loadAcousticFeatures], from the [await] on. *)
Definition loadAcousticFeatures_settled (questionIndex : nat)
    (r : reply acoustic_data) (s : state) : state :=
  let s' :=
    match r with
    | Json status data =>
        if ok status then s <| acousticData ::= <[questionIndex := data]> |> else s
    | Rejected message =>
        emit (console_error ("Error loading acoustic features: " ++ message)) s
    end in
  s' <| acoustic_loads ::= remove_first questionIndex |>.

(** [finalizeInterview], up to the first [await]. *)
Definition finalizeInterview (s : state) : state :=
  emit (POST_finalize (sessionId s))
    (s <| step := processing |>
       <| processingProgress := 0 |>
       <| progressInterval := true |>
       <| finalizing := Some {| fc_sessionId := sessionId s;
                                fc_position := position (form_data s);
                                fc_questions := length (questions s);
                                fc_acousticData := acousticData s |} |>).

(** [nextQuestion] *)
Definition nextQuestion (s : state) : state :=
  if (Z.of_nat (currentQuestionIndex s) <? Z.of_nat (length (questions s)) - 1)%Z
  then s <| currentQuestionIndex ::= S |>
  else finalizeInterview s.

(** The callback of the progress interval. *)
Definition progress_tick (s : state) : state :=
  s <| processingProgress ::= (λ prev, if (90 <=? prev)%nat then prev else (prev + 5)%nat) |>.

(** [JSON.parse(localStorage.getItem('sessionHistory') || '[]')], with the
    [unshift] that follows: an object has no [unshift]. *)
Definition readSessionHistory (st : storage) : outcome (list sessionData) :=
  match st !! "sessionHistory" with
  | None => Returned []
  | Some (CSessionHistory h) => Returned h
  | Some (CText t) => if String.eqb t "" then Returned [] else Thrown
  | Some _ => Thrown
  end.

(** [finalizeInterview], from the [await] on; [now] is the reading of
    [new Date()]. *)
Definition finalizeInterview_settled (c : finalize_closure) (now : Z)
    (r : reply string) (s : state) : state :=
  let s0 := s <| finalizing := None |> <| progressInterval := false |> in
  match r with
  | Json _ _ =>
      let s1 := s0 <| processingProgress := 100 |> in
      let sessionData :=
        {| sd_sessionId := fc_sessionId c;
           sd_position := fc_position c;
           sd_timestamp := now;
           sd_questions := fc_questions c;
           sd_acousticData := fc_acousticData c |} in
      match readSessionHistory (localStorage s1) with
      | Returned history =>
          s1 <| localStorage ::= <["sessionHistory" := CSessionHistory (sessionData :: history)]> |>
             <| results_timer := true |>
      | Thrown =>
          emit (alert "Error finalizing interview: invalid session history") s1
      end
  | Rejected message =>
      emit (alert ("Error finalizing interview: " ++ message)) s0
  end.

(** The callback of the 500 ms timer. *)
Definition show_results (s : state) : state :=
  emit onSessionComplete (s <| results_timer := false |> <| step := results |>).

(** *** Events

    What the user and the browser can do to the component.  An event is
    delivered only when the page offers it: a button must be rendered and
    enabled, a completion needs its request or timer in flight.  The stop
    event of a recorder is delivered before the next recording can start
    (the browser queues it at [stop()], before any later click).  A click
    on "Start Recording" comes with what [getUserMedia] settles to; clicks
    made while the camera is still being opened are not among the events. *)
Inductive event :=
| change_form (f : formData)
| click_generate
| generate_settled (r : reply (list string * option string))
| click_start_recording (camera : reply unit)
| recording_second
| data_available (c : chunk)
| click_stop_recording
| recorder_stopped
| upload_settled (sid : option string) (questionIndex : nat) (r : reply string)
| acoustic_timer_fired (sid : option string) (questionIndex : nat)
| acoustic_settled (questionIndex : nat) (r : reply acoustic_data)
| click_next
| progress_interval_fired
| finalize_settled (now : Z) (r : reply string)
| results_timer_fired
| click_start_new_interview.

Definition when (b : bool) (s : state) : option state :=
  if b then Some s else None.

Definition handle (e : event) (s : state) : option state :=
  match e with
  | change_form f =>
      when (bool_decide (step s = form)) (s <| form_data := f |>)
  | click_generate =>
      when (bool_decide (step s = form) && negb (generate_disabled s))
           (generateQuestions s)
  | generate_settled r =>
      when (isGeneratingQuestions s) (generateQuestions_settled r s)
  | click_start_recording camera =>
      when (bool_decide (step s = interview) && negb (isRecording s) && negb (stopping s))
           (startRecording camera s)
  | recording_second =>
      when (isRecording s) (s <| recordingTime ::= S |>)
  | data_available c =>
      when (stopping s) (ondataavailable c s)
  | click_stop_recording =>
      when (bool_decide (step s = interview) && isRecording s) (stopRecording s)
  | recorder_stopped =>
      match mediaRecorder s with
      | Some r => when (stopping s) (onstop r s)
      | None => None
      end
  | upload_settled sid i r =>
      when (bool_decide ((sid, i) ∈ uploads s)) (uploadVideo_settled sid i r s)
  | acoustic_timer_fired sid i =>
      when (bool_decide ((sid, i) ∈ acoustic_timers s)) (loadAcousticFeatures sid i s)
  | acoustic_settled i r =>
      when (bool_decide (i ∈ acoustic_loads s)) (loadAcousticFeatures_settled i r s)
  | click_next =>
      when (bool_decide (step s = interview)
            && bool_decide (is_Some (recordedVideos s !! currentQuestionIndex s))
            && negb (isUploading s))
           (nextQuestion s)
  | progress_interval_fired =>
      when (progressInterval s) (progress_tick s)
  | finalize_settled now r =>
      match finalizing s with
      | Some c => Some (finalizeInterview_settled c now r s)
      | None => None
      end
  | results_timer_fired =>
      when (results_timer s) (show_results s)
  | click_start_new_interview =>
      when (bool_decide (step s = results)) (s <| step := form |>)
  end.

(** Deliver a sequence of events; [None] as soon as one is not on offer. *)
Fixpoint run (es : list event) (s : state) : option state :=
  match es with
  | [] => Some s
  | e :: es' =>
      match handle e s with
      | Some s' => run es' s'
      | None => None
      end
  end.

Definition reachable (s0 s : state) : Prop := ∃ es, run es s0 = Some s.

(** [formatTime]: minutes, a colon, and the seconds padded to two digits
    ([padStart(2, '0')]). *)
Definition padStart2 (s : string) : string :=
  match String.length s with
  | 0 => "00" +:+ s
  | 1 => "0" +:+ s
  | _ => s
  end.

Definition formatTime (seconds : nat) : string :=
  pretty (seconds / 60) +:+ ":" +:+ padStart2 (pretty (seconds mod 60)).

(** The moves between pages that the component makes. *)
Definition next_page (a b : step_name) : bool :=
  match a, b with
  | form, interview
  | interview, processing
  | processing, results
  | results, form => true
  | _, _ => false
  end.

(** The session ids that the replies to the question requests carried. *)
Definition received (es : list event) : list (option string) :=
  omap (λ e, match e with
             | generate_settled (Json _ (_, sid)) => Some sid
             | _ => None
             end) es.



(** The session ids that requests were sent for. *)
Definition addressed (l : list effect) : list (option string) :=
  omap (λ e, match e with
             | POST_upload_video sid _ _
             | GET_acoustic_features sid _
             | POST_finalize sid => Some sid
             | _ => None
             end) l.

(** The session ids in use are among the ids [l]: the session on show once
    the form has been left, the session a recorder sends to, the sessions of
    the pending uploads and timers, and the sessions that requests were
    sent for. *)
Definition sessions_among (l : list (option string)) (s : state) : Prop :=
  (step s ≠ form -> sessionId s ∈ l)
  ∧ (∀ r, mediaRecorder s = Some r -> onstop_sessionId r ∈ l)
  ∧ (∀ sid i, (sid, i) ∈ uploads s -> sid ∈ l)
  ∧ (∀ sid i, (sid, i) ∈ acoustic_timers s -> sid ∈ l)
  ∧ (∀ sid, sid ∈ addressed (log s) -> sid ∈ l).

(** Which asynchronous work can be in flight on which page: a question
    request only on the form, a finalize request and the results timer only
    on the processing page, the timer only once the request is done. *)
Definition pages_ok (s : state) : Prop :=
  (isGeneratingQuestions s = true -> step s = form)
  ∧ (results_timer s = true -> step s = processing ∧ finalizing s = None)
  ∧ (is_Some (finalizing s) -> step s = processing).

End Interview.


(** ** AnalysisDashboard.js *)

Module Analysis.

Local Open Scope nat_scope.

(** The [report] of a speech analysis.  Each leaf is reached by optional
    chaining ([report?.pitch_analysis?.mean_pitch], ...), so a missing
    intermediate object shows as a missing leaf.  [speech_other] holds every
    property that the page does not read. *)
Record speech_report := {
  mean_pitch : JS.value;
  speech_rate : option float;
  volume_consistency : option string;
  voice_clarity : option string;
  speech_recommendations : option (list string);
  speech_other : gmap string JS.value
}.

Record video_report := {
  dominant_emotion : option string;
  eye_contact_quality : option string;
  overall_engagement : option string;
  face_detection_rate : option float;
  video_recommendations : option (list string);
  video_other : gmap string JS.value
}.

(** A Plotly figure; only its identity matters here. *)
Definition figure := string.

(** An analysis object: [report], [visualization] (a JSON text, which
    [JSON.parse] turns into a figure or rejects) and whatever else the
    server attached. *)
Record analysis (R : Type) := {
  report : option R;
  visualization : option (outcome figure);
  attached : gmap string JS.value
}.
Arguments report {R} _.
Arguments visualization {R} _.
Arguments attached {R} _.

Record question_analysis := {
  question : string;
  speech_analysis : option (analysis speech_report);
  video_analysis : option (analysis video_report)
}.

Record analysisData := {
  question_analyses : list question_analysis
}.

(** *** Overview *)

(** The two icons of a status row. *)
Inductive icon := CheckCircle | AlertCircle.

#[global] Instance icon_eq_dec : EqDecision icon.
Proof. solve_decision. Defined.

Record status_row := {
  row_number : nat;
  row_text : string;
  row_speech : icon;
  row_video : icon;
  row_selected : bool
}.

(** The four summary cards and the status list. *)
Record overview := {
  totalQuestions : nat;
  speechAnalyzed : nat;
  videoAnalyzed : nat;
  analysisComplete : JS.integral;      (* shown with a [%] sign *)
  rows : list status_row
}.

Definition status_icon {A} (a : option A) : icon :=
  match a with Some _ => CheckCircle | None => AlertCircle end.

Definition status_of (selectedQuestion index : nat) (q : question_analysis) : status_row :=
  {| row_number := index + 1;
     row_text := String.substring 0 80 (question q) ++ "...";
     row_speech := status_icon (speech_analysis q);
     row_video := status_icon (video_analysis q);
     row_selected := bool_decide (selectedQuestion = index) |}.

(** [Math.round((speechAnalyzed + videoAnalyzed) / (totalQuestions * 2) * 100)] *)
Definition complete (speech video total : nat) : JS.integral :=
  JS.round (JS.of_nat (speech + video) / JS.of_nat (total * 2) * 100)%float.

Definition renderOverview (data : option analysisData) (selectedQuestion : nat)
  : option overview :=
  match data with
  | None => None
  | Some d =>
      let qs := question_analyses d in
      let total := length qs in
      let speech := length (filter (λ q, is_Some (speech_analysis q)) qs) in
      let video := length (filter (λ q, is_Some (video_analysis q)) qs) in
      Some {| totalQuestions := total;
              speechAnalyzed := speech;
              videoAnalyzed := video;
              analysisComplete := complete speech video total;
              rows := imap (status_of selectedQuestion) qs |}
  end.

(** *** The speech and video tabs *)

Record speech_panel := {
  speech_heading : nat;
  meanPitch : JS.value;                (* shown with [Hz] *)
  speechRate : JS.integral;            (* shown with [%] *)
  energyLevel : string;
  voiceClarity : string;
  speech_plot : option figure;
  speech_tips : option (list string)
}.

Record video_panel := {
  video_heading : nat;
  dominantEmotion : string;
  eyeContact : string;
  engagement : string;
  faceDetection : JS.integral;         (* shown with [%] *)
  video_plot : option figure;
  video_tips : option (list string)
}.

(** A tab shows the notice "... Analysis Not Available", or a panel. *)
Inductive tab (P : Type) :=
| not_available
| panel (p : P).
Arguments not_available {P}.
Arguments panel {P} p.

(** [analysisData?.question_analyses[selectedQuestion]] *)
Definition currentQuestion (data : option analysisData) (selectedQuestion : nat)
  : option question_analysis :=
  d ← data; question_analyses d !! selectedQuestion.

(** [visualization && <Plot data={JSON.parse(visualization).data} .../>] *)
Definition plot (v : option (outcome figure)) : outcome (option figure) :=
  match v with
  | None => Returned None
  | Some (Returned f) => Returned (Some f)
  | Some Thrown => Thrown
  end.

Definition renderSpeechAnalysis (data : option analysisData) (selectedQuestion : nat)
  : outcome (tab speech_panel) :=
  match currentQuestion data selectedQuestion ≫= speech_analysis with
  | None => Returned not_available
  | Some speechData =>
      let r := report speechData in
      match plot (visualization speechData) with
      | Thrown => Thrown
      | Returned fig =>
          Returned (panel
            {| speech_heading := selectedQuestion + 1;
               meanPitch := JS.or (from_option mean_pitch JS.Undefined r) (JS.Num 0);
               speechRate := JS.round (JS.num_or (r ≫= speech_rate) 0 * 100)%float;
               energyLevel := JS.str_or (r ≫= volume_consistency) "N/A";
               voiceClarity := JS.str_or (r ≫= voice_clarity) "N/A";
               speech_plot := fig;
               speech_tips := r ≫= speech_recommendations |})
      end
  end.

Definition renderVideoAnalysis (data : option analysisData) (selectedQuestion : nat)
  : outcome (tab video_panel) :=
  match currentQuestion data selectedQuestion ≫= video_analysis with
  | None => Returned not_available
  | Some videoData =>
      let r := report videoData in
      match plot (visualization videoData) with
      | Thrown => Thrown
      | Returned fig =>
          Returned (panel
            {| video_heading := selectedQuestion + 1;
               dominantEmotion := JS.str_or (r ≫= dominant_emotion) "N/A";
               eyeContact := JS.str_or (r ≫= eye_contact_quality) "N/A";
               engagement := JS.str_or (r ≫= overall_engagement) "N/A";
               faceDetection := JS.round (JS.num_or (r ≫= face_detection_rate) 0 * 100)%float;
               video_plot := fig;
               video_tips := r ≫= video_recommendations |})
      end
  end.

(** *** What the page does not read *)

(** The same analysis without the properties that no render function
    reads. *)
Definition read_part {R} (clean : R -> R) (a : analysis R) : analysis R :=
  {| report := clean <$> report a;
     visualization := visualization a;
     attached := ∅ |}.

Definition read_speech (r : speech_report) : speech_report :=
  {| mean_pitch := mean_pitch r;
     speech_rate := speech_rate r;
     volume_consistency := volume_consistency r;
     voice_clarity := voice_clarity r;
     speech_recommendations := speech_recommendations r;
     speech_other := ∅ |}.

Definition read_video (r : video_report) : video_report :=
  {| dominant_emotion := dominant_emotion r;
     eye_contact_quality := eye_contact_quality r;
     overall_engagement := overall_engagement r;
     face_detection_rate := face_detection_rate r;
     video_recommendations := video_recommendations r;
     video_other := ∅ |}.

Definition read_question (q : question_analysis) : question_analysis :=
  {| question := question q;
     speech_analysis := read_part read_speech <$> speech_analysis q;
     video_analysis := read_part read_video <$> video_analysis q |}.

Definition read_data (d : analysisData) : analysisData :=
  {| question_analyses := read_question <$> question_analyses d |}.

End Analysis.

(** ** AcousticVisualization *)

Module Acoustic.

Local Open Scope nat_scope.

(** [activeFeature] *)
Inductive feature := Pitch | Energy | Spectral | Waveform.

(** An axis label: [t.toFixed(digits) + 's'] or the empty string. *)
Inductive axis_label :=
| seconds (t : float) (digits : nat)
| blank.

(** [time?.map((t, i) => i % every === 0 ? `${t.toFixed(digits)}s` : '') || []] *)
Definition axis (every digits : nat) (time : option (list float)) : list axis_label :=
  match time with
  | Some ts => imap (λ i t, if i mod every =? 0 then seconds t digits else blank) ts
  | None => []
  end.

Record dataset := {
  ds_label : string;
  ds_data : option (list (option float))   (* [None]: the property was missing *)
}.

Record chartData := {
  labels : list axis_label;
  datasets : list dataset
}.

(** [v > 0 ? v : null]; [null > 0] is false. *)
Definition voiced_or_null (v : option float) : option float :=
  match v with
  | Some x => if (0 <? x)%float then Some x else None
  | None => None
  end.

Definition getChartData (activeFeature : feature) (fs : acoustic_features)
  : option chartData :=
  match activeFeature with
  | Pitch =>
      p ← pitch fs;
      values ← pitch_values p;
      Some {| labels := axis 10 1 (pitch_time p);
              datasets := [ {| ds_label := "Pitch (Hz)";
                               ds_data := Some (voiced_or_null <$> values) |} ] |}
  | Energy =>
      e ← energy fs;
      rms ← energy_rms e;
      Some {| labels := axis 10 1 (energy_time e);
              datasets := [ {| ds_label := "RMS Energy"; ds_data := Some rms |} ] |}
  | Spectral =>
      sp ← spectral fs;
      Some {| labels := axis 10 1 (spectral_time sp);
              datasets :=
                [ {| ds_label := "Spectral Centroid (Hz)";
                     ds_data := spectral_centroid sp |};
                  {| ds_label := "Zero Crossing Rate";
                     ds_data :=
                       Some (from_option
                               (fmap (M := list) (λ v, Some (v * 1000)%float))
                               [] (spectral_zcr sp)) |} ] |}
  | Waveform =>
      w ← time_series_ fs;
      Some {| labels := axis 50 2 (series_time w);
              datasets := [ {| ds_label := "Amplitude";
                               ds_data := series_amplitude w |} ] |}
  end.

End Acoustic.

(** ** components/Dashboard.js (reads ['sessionHistory']) *)

Module SessionDashboard.

(** [loadSessionHistory]: what the [sessionHistory] state holds afterwards.
    The parsed history becomes the state; when [JSON.parse] throws, the
    [catch] logs and the state stays.  [None]: the stored value parses to
    something that is no list of sessions, and that becomes the state. *)
Definition loadSessionHistory (st : storage) (sessionHistory : list sessionData)
  : option (list sessionData) :=
  match st !! "sessionHistory" with
  | None => Some []
  | Some (CSessionHistory h) => Some h
  | Some (CText t) => if String.eqb t "" then Some [] else Some sessionHistory
  | Some _ => None
  end.

(** [sessionHistory.slice(0, 3)], the recent sessions of the dashboard. *)
Definition recentSessions (sessionHistory : list sessionData) : list sessionData :=
  take 3 sessionHistory.

End SessionDashboard.

(** ** The session as the specification sees it *)

Module Session.

Import Interview.

(** The session states of the specification (section 4.1). *)
Inductive status := Created | InProgress | Finalizing | Complete | Failed.

#[global] Instance status_eq_dec : EqDecision status.
Proof. solve_decision. Defined.

(** The specification's state machine: Created → InProgress → Finalizing →
    Complete | Failed.  Staying in place is no transition. *)
Definition allowed (a b : status) : bool :=
  match a, b with
  | Created, InProgress
  | InProgress, Finalizing
  | Finalizing, Complete
  | Finalizing, Failed => true
  | _, _ => bool_decide (a = b)
  end.

(** Has an answer been sent ([recordAnswer]) for the session [sid]? *)
Definition answered (sid : option string) (l : list effect) : bool :=
  existsb (λ e, match e with
                | POST_upload_video sid' _ _ => bool_decide (sid' = sid)
                | _ => false
                end) l.

(** Where the session that the component is driving stands.  On the form
    there is no session yet (or no longer); the interview page shows a
    session that is Created until its first answer has been sent; the
    processing page shows a session being finalized; the results page shows
    a complete one.  The component has no page for [Failed]. *)
Definition status_of (s : state) : option status :=
  match step s with
  | form => None
  | interview => Some (if answered (sessionId s) (log s) then InProgress else Created)
  | processing => Some Finalizing
  | results => Some Complete
  end.

(** A step of the component respects the state machine when the session
    either appears, disappears, stays, or moves along an allowed edge. *)
Definition respects (before after : option status) : bool :=
  match before, after with
  | Some a, Some b => allowed a b
  | None, Some b => bool_decide (b = Created)
  | _, None => true
  end.

(** What holds as long as "Start New Interview" has not been pressed: on
    the form nothing has been recorded or sent yet, a recorder sends to the
    session on show, and a stored recording has been sent for the session
    on show. *)
Definition first_ok (s : state) : Prop :=
  (step s = form ->
   mediaRecorder s = None ∧ recordedVideos s = ∅
   ∧ ∀ sid, answered sid (log s) = false)
  ∧ (∀ r, mediaRecorder s = Some r -> onstop_sessionId r = sessionId s)
  ∧ (∀ i, is_Some (recordedVideos s !! i) ->
          answered (sessionId s) (log s) = true).

End Session.

(** ** The acoustic feature extractor *)

Module Extractor.

Local Open Scope Z_scope.

(** Modelled from the spec: the configuration of the Acoustic Feature
    Extractor (section 4.2), which runs in the analysis backend and is not
    among the client sources.  "Fixed frame length and hop", an "energy
    threshold", "a pitch-tracking algorithm" and "a defined neutral value". *)
Record config := {
  sample_rate : nat;
  frame_length : nat;
  hop : nat;
  energy_threshold : Z;
  track_pitch : list Z -> Z;
  neutral : Z
}.

(** Modelled from the spec: the pitch statistics of an AcousticFeatureSet
    (section 3), an extractor output that is not among the client sources:
    "mean, stdev, min/max, voiced-frame ratio", the ratio kept as the two
    counts. *)
Record pitch_statistics := {
  mean : Z;
  stdev : Z;
  minimum : Z;
  maximum : Z;
  voiced_frames : nat;
  total_frames : nat
}.

(** Modelled from the spec: the AcousticFeatureSet (section 3), not among
    the client sources, cut down to the pitch statistics, the pitch contour
    and the [insufficient_signal] flag. *)
Record AcousticFeatureSet := {
  pitch_stats : pitch_statistics;
  pitch_contour : list Z;
  insufficient_signal : bool
}.

(** Modelled from the spec: the extractor's input-validation failure
    (section 7), not among the client sources. *)
Inductive error := InputTooShort.

(** Modelled from the spec: framing of the extractor (section 4.2, "frame
    the buffer (fixed frame length and hop)"), not among the client sources.
    [fuel] bounds the number of frames. *)
Fixpoint frames_from (fuel : nat) (cfg : config) (samples : list Z) : list (list Z) :=
  match fuel with
  | O => []
  | S fuel' =>
      if (length samples <? frame_length cfg)%nat then []
      else take (frame_length cfg) samples
             :: frames_from fuel' cfg (drop (Nat.max 1 (hop cfg)) samples)
  end.

(** Modelled from the spec: the frames of a buffer (section 4.2), not among
    the client sources. *)
Definition frames (cfg : config) (samples : list Z) : list (list Z) :=
  frames_from (length samples) cfg samples.

(** Modelled from the spec: the energy of a frame (section 4.2, "classify
    each frame voiced/unvoiced via energy threshold"), not among the client
    sources; the sum of squares stands for the RMS, which is monotone in
    it. *)
Definition frame_energy (frame : list Z) : Z :=
  foldr (λ x acc, x * x + acc) 0 frame.

(** Modelled from the spec: the voiced/unvoiced decision of the extractor
    (section 4.2), not among the client sources. *)
Definition voiced (cfg : config) (frame : list Z) : bool :=
  energy_threshold cfg <? frame_energy frame.

(** Modelled from the spec: the pitch contour of the extractor (section
    4.2, "run a pitch-tracking algorithm over voiced frames to build a pitch
    contour"), not among the client sources. *)
Definition contour (cfg : config) (samples : list Z) : list Z :=
  track_pitch cfg <$> filter (λ f, voiced cfg f = true) (frames cfg samples).

(** Modelled from the spec: sum of a contour, used by the extractor's pitch
    statistics (section 3), not among the client sources. *)
Definition total (l : list Z) : Z := foldr Z.add 0 l.

(** Modelled from the spec: the extractor's pitch statistics over a
    non-empty contour (section 3), not among the client sources. *)
Definition statistics (cfg : config) (samples : list Z) (c : list Z) : pitch_statistics :=
  let n := Z.of_nat (length c) in
  let m := total c / n in
  {| mean := m;
     stdev := Z.sqrt (total ((λ x, (x - m) * (x - m)) <$> c) / n);
     minimum := foldr Z.min (default 0 (head c)) c;
     maximum := foldr Z.max (default 0 (head c)) c;
     voiced_frames := length c;
     total_frames := length (frames cfg samples) |}.

(** Modelled from the spec: the extractor's edge-case policy (section 4.2),
    not among the client sources: "if voiced-frame ratio is 0 (pure
    silence/noise), set insufficient_signal=true and all pitch statistics to
    a defined neutral value", and "clips shorter than 1 second fail fast
    with InputTooShort before any framing is attempted". *)
Definition extract (cfg : config) (samples : list Z) : error + AcousticFeatureSet :=
  if (length samples <? sample_rate cfg)%nat then inl InputTooShort
  else
    let c := contour cfg samples in
    match c with
    | [] =>
        inr {| pitch_stats :=
                 {| mean := neutral cfg; stdev := neutral cfg;
                    minimum := neutral cfg; maximum := neutral cfg;
                    voiced_frames := 0;
                    total_frames := length (frames cfg samples) |};
               pitch_contour := [];
               insufficient_signal := true |}
    | _ :: _ =>
        inr {| pitch_stats := statistics cfg samples c;
               pitch_contour := c;
               insufficient_signal := false |}
    end.

End Extractor.

(** ** Sample inputs *)

Module Samples.

Import Interview.

Local Open Scope nat_scope.

(** The clock readings of one login. *)
Definition demo_clock : Auth.clock :=
  {| Auth.at_createdAt := 1700000000000;
     Auth.at_lastLogin := 1700000000001;
     Auth.at_loginTime := 1700000000001;
     Auth.at_expiresAt := 1700000000002 |}.

Definition admin_session : session_user :=
  {| su_id := "1"; su_username := "admin"; su_email := "admin@face2phrase.com";
     su_fullName := "Administrator"; su_role := "admin" |}.

(** A store that already holds one entry of the overview dashboard. *)
Definition earlier : history_entry :=
  {| iv_sessionId := Some "s0"; iv_position := "Analyst"; iv_date := "1/2/2025";
     iv_score := Some 80%float; iv_questions := 3 |}.

Definition demo_store : storage :=
  {[ "interview_history" := CInterviewHistory [earlier] ]}.

Definition demo_form : formData :=
  {| name := "Ada"; email := "ada@example.com"; position := "Engineer";
     experience := "5 years"; jd := "" |}.

(** The component as mounted for the user Ada. *)
Definition mounted : state := initial "Ada" "ada@example.com" demo_store.

(** A store that also holds the session of an earlier interview, and the
    component mounted on it. *)
Definition earlier_session : sessionData :=
  {| sd_sessionId := Some "s0"; sd_position := "Analyst";
     sd_timestamp := 1690000000000; sd_questions := 3;
     sd_acousticData := ∅ |}.

Definition returning_store : storage :=
  <["sessionHistory" := CSessionHistory [earlier_session]]> demo_store.

Definition mounted_again : state :=
  initial "Ada" "ada@example.com" returning_store.

(** Three registered users (id, username, password, email, full name,
    role, creation time, last login). *)
Definition ada : user :=
  Build_user "1700000000500" "ada" "lovelace" "ada@example.com"
    "Ada Lovelace" "user" 1700000000500 None.

Definition bob : user :=
  Build_user "1700000000900" "bob" "builder" "bob@example.com"
    "Bob" "user" 1700000000900 None.

Definition three_users : storage :=
  {[ "face2phrase_users" := CUsers [Auth.defaultUser 1700000000000; ada; bob] ]}.

(** Fill in the form and obtain the questions of session [sid]. *)
Definition open_session (sid : string) (qs : list string) : list event :=
  [ change_form demo_form; click_generate;
    generate_settled (Json 200 (qs, Some sid)) ].

(** Record one answer whose media is the single chunk [c]. *)
Definition record_answer (c : chunk) : list event :=
  [ click_start_recording (Json 200 ()); click_stop_recording;
    data_available c; recorder_stopped ].

(** Four tenths of a second of video. *)
Definition short_chunk : chunk := {| chunk_size := 4096; chunk_millis := 400 |}.

(** Three seconds of video. *)
Definition long_chunk : chunk := {| chunk_size := 4800; chunk_millis := 3000 |}.



(** A question answered and uploaded, then answered again. *)
Definition answered_twice : list event :=
  open_session "s1" ["Tell me about yourself."]
  ++ record_answer long_chunk
  ++ [ upload_settled (Some "s1") 0 (Json 200 "saved") ]
  ++ record_answer short_chunk.

(** One question, answered, uploaded, and the interview finished. *)
Definition one_question_answered : list event :=
  open_session "s1" ["Tell me about yourself."]
  ++ record_answer long_chunk
  ++ [ upload_settled (Some "s1") 0 (Json 200 "saved"); click_next ].

(** ... and the reply to the finalize request, then the results page. *)
Definition one_question_finished : list event :=
  one_question_answered
  ++ [ finalize_settled 1700000100000 (Json 200 "done"); results_timer_fired ].

(** The interview finished, a second one started with the button on the
    results page, its questions received. *)
Definition second_interview_opened : list event :=
  one_question_finished
  ++ [ click_start_new_interview; click_generate;
       generate_settled (Json 200 (["Why this position?"], Some "s2")) ].

(** *** Analysis data *)

Import Analysis.

Definition speech_of (hz : float) : analysis speech_report :=
  {| report := Some {| mean_pitch := JS.Num hz;
                       speech_rate := Some 0.75%float;
                       volume_consistency := Some "high";
                       voice_clarity := Some "good";
                       speech_recommendations := Some ["Slow down a little."];
                       speech_other := ∅ |};
     visualization := None;
     attached := ∅ |}.

(** A facial report with the given value of a [degraded] flag, set both on
    the analysis and inside its report. *)
Definition video_of (degraded : bool) : analysis video_report :=
  {| report := Some {| dominant_emotion := Some "neutral";
                       eye_contact_quality := None;
                       overall_engagement := None;
                       face_detection_rate := Some 0%float;
                       video_recommendations := None;
                       video_other := {[ "degraded" := JS.Bool degraded ]} |};
     visualization := None;
     attached := {[ "degraded" := JS.Bool degraded ]} |}.

Definition analysed (text : string) (hz : float) (degraded : bool) : question_analysis :=
  {| question := text;
     speech_analysis := Some (speech_of hz);
     video_analysis := Some (video_of degraded) |}.

Definition never_uploaded (text : string) : question_analysis :=
  {| question := text; speech_analysis := None; video_analysis := None |}.

(** Three questions, the third never uploaded. *)
Definition two_of_three : analysisData :=
  {| question_analyses :=
       [ analysed "Tell me about yourself." 180 false;
         analysed "Why this position?" 175 false;
         never_uploaded "Where do you see yourself in five years?" ] |}.

(** One question with a speech analysis and no video analysis. *)
Definition speech_only : analysisData :=
  {| question_analyses :=
       [ {| question := "Tell me about yourself.";
            speech_analysis := Some (speech_of 180);
            video_analysis := None |} ] |}.

(** One question, nothing analysed. *)
Definition nothing_yet : analysisData :=
  {| question_analyses := [ never_uploaded "Tell me about yourself." ] |}.

(** Three questions analysed with the facial backend unavailable, and the
    same with the flag cleared. *)
Definition three_degraded (degraded : bool) : analysisData :=
  {| question_analyses :=
       [ analysed "Tell me about yourself." 180 degraded;
         analysed "Why this position?" 175 degraded;
         analysed "Where do you see yourself in five years?" 190 degraded ] |}.

(** *** Audio *)

(** 16 kHz, frames of 25 ms every 10 ms, pitch fixed at 200 Hz by a stub
    tracker, neutral value 0. *)
Definition demo_config : Extractor.config :=
  {| Extractor.sample_rate := 16;
     Extractor.frame_length := 4;
     Extractor.hop := 2;
     Extractor.energy_threshold := 10%Z;
     Extractor.track_pitch := λ _, 200%Z;
     Extractor.neutral := 0%Z |}.

(** One second of silence at the sample rate of [demo_config]. *)
Definition silence : list Z := replicate 16 0%Z.

End Samples.


(** * Properties *)

(** ** Doubles *)

Section FloatFacts.

Lemma iter_pos_nat {A} (f : A -> A) (p : positive) (x : A) :
  SpecFloat.iter_pos f p x = Nat.iter (Pos.to_nat p) f x.
Proof.
  revert x. induction p as [p IH | p IH |]; intros x; cbn [SpecFloat.iter_pos].
  - rewrite !IH, Pos2Nat.inj_xI, <- Nat.iter_add, <- Nat.iter_succ_r.
    f_equal. lia.
  - rewrite !IH, Pos2Nat.inj_xO, <- Nat.iter_add. f_equal. lia.
  - reflexivity.
Qed.

Lemma shr_1_digits (mrs : shr_record) :
  0 < shr_m mrs -> 2 <= Zdigits2 (shr_m mrs) ->
  0 < shr_m (shr_1 mrs) /\ Zdigits2 (shr_m (shr_1 mrs)) = Zdigits2 (shr_m mrs) - 1.
Proof.
  destruct mrs as [m r s]. cbn [shr_m]. intros Hm Hd.
  destruct m as [| p | p]; try lia.
  destruct p as [p | p |]; cbn [shr_1 shr_m Zdigits2 digits2_pos] in *; try lia.
  all: rewrite Pos2Z.inj_succ; lia.
Qed.

Lemma iter_shr_1_digits (k : nat) (mrs : shr_record) :
  0 < shr_m mrs -> Z.of_nat k < Zdigits2 (shr_m mrs) ->
  0 < shr_m (Nat.iter k shr_1 mrs)
  /\ Zdigits2 (shr_m (Nat.iter k shr_1 mrs)) = Zdigits2 (shr_m mrs) - Z.of_nat k.
Proof.
  intros Hm. induction k as [| k IH]; intros Hk.
  - cbn. split; [done | lia].
  - destruct IH as [Hpos Hdig]; [lia |].
    rewrite Nat.iter_succ.
    destruct (shr_1_digits (Nat.iter k shr_1 mrs)) as [H1 H2]; [lia | lia |].
    split; [exact H1 | lia].
Qed.

Lemma Zdigits2_pos (m : Z) : 0 < m -> 0 < Zdigits2 m.
Proof. destruct m; cbn; lia. Qed.

(** Rounding a positive mantissa at an exponent above [emin] never loses
    it. *)
Lemma shr_fexp_positive (m e : Z) (l : location) :
  0 < m -> SpecFloat.emin prec emax <= e ->
  0 < shr_m (fst (shr_fexp prec emax m e l))
  /\ SpecFloat.emin prec emax <= snd (shr_fexp prec emax m e l).
Proof.
  intros Hm He. unfold shr_fexp, shr.
  assert (Hd := Zdigits2_pos m Hm).
  assert (Hrec : shr_m (shr_record_of_loc m l) = m)
    by (destruct l as [| []]; reflexivity).
  destruct (fexp prec emax (Zdigits2 m + e) - e) as [| n | n] eqn:Hn; cbn [fst snd].
  - rewrite Hrec. lia.
  - rewrite iter_pos_nat.
    assert (Hlt : Z.pos n < Zdigits2 m).
    { unfold fexp in Hn. unfold SpecFloat.emin, prec, emax in *. lia. }
    destruct (iter_shr_1_digits (Pos.to_nat n) (shr_record_of_loc m l)) as [H1 _].
    + rewrite Hrec. lia.
    + rewrite Hrec, positive_nat_Z. lia.
    + split; [exact H1 | lia].
  - rewrite Hrec. lia.
Qed.

Lemma round_nearest_even_positive (m : Z) (l : location) :
  0 < m -> 0 < round_nearest_even m l.
Proof.
  intros Hm. unfold round_nearest_even.
  destruct l as [| []]; try lia. destruct (Z.even m); lia.
Qed.

Lemma binary_round_aux_nonzero (s : bool) (m e : Z) (l : location) :
  0 < m -> SpecFloat.emin prec emax <= e ->
  JS.nonzero_number (binary_round_aux prec emax s m e l).
Proof.
  intros Hm He. unfold binary_round_aux.
  destruct (shr_fexp_positive m e l Hm He) as [H1 H2].
  destruct (shr_fexp prec emax m e l) as [mrs' e'] eqn:E1. cbn [fst snd] in *.
  pose proof (round_nearest_even_positive (shr_m mrs') (loc_of_shr_record mrs') H1) as Hr.
  destruct (shr_fexp_positive _ e' loc_Exact Hr H2) as [H3 _].
  destruct (shr_fexp prec emax (round_nearest_even _ _) e' loc_Exact) as [mrs'' e''].
  cbn [fst] in H3.
  destruct (shr_m mrs'') as [| p | p]; try lia.
  by destruct (e'' <=? emax - prec).
Qed.

Lemma binary_normalize_nonzero (z : Z) :
  0 < z -> JS.nonzero_number (binary_normalize prec emax z 0 false).
Proof.
  intros Hz. destruct z as [| p | p]; try lia.
  unfold binary_normalize, binary_round.
  destruct (shl_align p 0 (fexp prec emax (Z.pos (digits2_pos p) + 0))) as [mz ez] eqn:E.
  apply binary_round_aux_nonzero; [lia |].
  unfold shl_align in E.
  destruct (fexp prec emax (Z.pos (digits2_pos p) + 0) - 0) eqn:E2;
    injection E as <- <-; unfold fexp, SpecFloat.emin, prec, emax in *; lia.
Qed.


Lemma of_nat_nonzero (n : nat) :
  0 < Z.of_nat n < 2 ^ 63 -> JS.nonzero_number (Prim2SF (JS.of_nat n)).
Proof.
  intros Hn. unfold JS.of_nat.
  rewrite of_uint63_spec, Uint63.of_Z_spec, Z.mod_small by (change Uint63.wB with (2 ^ 63); lia).
  apply binary_normalize_nonzero. lia.
Qed.

(** [0 / y * 100] rounds to 0 whenever [y] is a non-zero number. *)
Lemma round_zero_share (y : float) :
  JS.nonzero_number (Prim2SF y) ->
  JS.round (0 / y * 100)%float = JS.Int 0.
Proof.
  intros Hy.
  assert (Hdiv : ∃ s, Prim2SF (0 / y)%float = S754_zero s).
  { rewrite div_spec. change (Prim2SF 0%float) with (S754_zero false).
    destruct (Prim2SF y) as [| s | | s m e]; cbn in *; try done; by eexists. }
  destruct Hdiv as [s Hs].
  unfold JS.round. rewrite mul_spec, Hs.
  change (Prim2SF 100%float) with (S754_finite false 7036874417766400 (-46)).
  reflexivity.
Qed.

End FloatFacts.

(** ** Authentication *)

Section AuthFacts.

Import Auth.

Lemma getCurrentUser_fresh (a : authData) (st : storage) (now : Z) :
  now <= expiresAt a ->
  getCurrentUser now (<[AUTH_KEY := CAuth a]> st)
  = (<[AUTH_KEY := CAuth a]> st, current (auth_user a)).
Proof.
  intros Hle. unfold getCurrentUser.
  rewrite lookup_insert_eq.
  destruct (Z.ltb_spec (expiresAt a) now) as [Hlt | _]; [lia | reflexivity].
Qed.

Lemma getCurrentUser_expired (a : authData) (st : storage) (now : Z) :
  expiresAt a < now ->
  getCurrentUser now (<[AUTH_KEY := CAuth a]> st) = (delete AUTH_KEY st, null).
Proof.
  intros Hlt. unfold getCurrentUser, logoutUser.
  rewrite lookup_insert_eq.
  destruct (Z.ltb_spec (expiresAt a) now) as [_ | Hle]; [| lia].
  by rewrite delete_insert_eq.
Qed.

(** What a successful [loginUser] leaves behind: the session of the first
    stored user with these credentials, expiring a day after the clock
    reading. *)
Lemma loginUser_success (name pass : string) (clk : clock) (st st' : storage)
    (u : session_user) :
  loginUser name pass clk st = (st', success u) ->
  ∃ users i stored st2,
    getUsers (initializeDefaultUser (at_createdAt clk) st) = UsersArray users
    ∧ list_find (λ v, username v = name ∧ password v = pass) users = Some (i, stored)
    ∧ u = {| su_id := id stored; su_username := username stored;
             su_email := email stored; su_fullName := fullName stored;
             su_role := role stored |}
    ∧ st' = <[AUTH_KEY := CAuth {| auth_user := u;
                                   loginTime := at_loginTime clk;
                                   expiresAt := at_expiresAt clk + DAY |}]> st2.
Proof.
  unfold loginUser. intros H.
  destruct (getUsers (initializeDefaultUser (at_createdAt clk) st))
    as [users |] eqn:Hus; [| discriminate].
  destruct (list_find _ users) as [[i stored] |] eqn:Hfind; [| discriminate].
  cbn in H. injection H as Hst Hu. subst u.
  by eexists users, i, stored, _.
Qed.

End AuthFacts.

(** C9.  After a successful [loginUser(username, password)], which selects
    the first stored user with these credentials, [getCurrentUser()] returns
    that user's id, username, email, fullName and role at every instant up
    to 24 hours after the login's clock reading, and leaves the store as it
    is; at every later instant it returns [null] and the auth session is
    gone from the store. *)
Theorem login_session_lasts_24_hours
    (name pass : string) (clk : Auth.clock) (st st' : storage) (u : session_user) :
  Auth.loginUser name pass clk st = (st', Auth.success u) ->
  (∃ users i stored,
      Auth.getUsers (Auth.initializeDefaultUser (Auth.at_createdAt clk) st)
      = Auth.UsersArray users
      ∧ users !! i = Some stored
      ∧ username stored = name ∧ password stored = pass
      ∧ (∀ j v, users !! j = Some v -> (j < i)%nat ->
                ¬ (username v = name ∧ password v = pass))
      ∧ su_id u = id stored ∧ su_username u = username stored
      ∧ su_email u = email stored ∧ su_fullName u = fullName stored
      ∧ su_role u = role stored)
  ∧ (∀ now, now <= Auth.at_expiresAt clk + 24 * 60 * 60 * 1000 ->
        Auth.getCurrentUser now st' = (st', Auth.current u))
  ∧ (∀ now, Auth.at_expiresAt clk + 24 * 60 * 60 * 1000 < now ->
        (Auth.getCurrentUser now st').2 = Auth.null
        ∧ (Auth.getCurrentUser now st').1 !! Auth.AUTH_KEY = None
        ∧ ∀ k, k ≠ Auth.AUTH_KEY ->
               (Auth.getCurrentUser now st').1 !! k = st' !! k).
Proof.
  intros Hlogin.
  destruct (loginUser_success _ _ _ _ _ _ Hlogin)
    as (users & i & stored & st2 & Hus & Hfind & -> & ->).
  apply list_find_Some in Hfind as (Hi & [Hn Hp] & Hfirst).
  split; [| split].
  - by exists users, i, stored.
  - intros now Hnow. by apply getCurrentUser_fresh.
  - intros now Hnow.
    rewrite getCurrentUser_expired by exact Hnow. cbn.
    split; [done |]. split; [by rewrite lookup_delete_eq |].
    intros k Hk. rewrite lookup_delete_ne by done.
    by rewrite lookup_insert_ne.
Qed.

(** On an empty store the default administrator can log in; a day later to
    the millisecond the session is still there, one millisecond after that
    it is gone. *)
Lemma login_session_lasts_24_hours_witness :
  let st' := (Auth.loginUser "admin" "admin123" Samples.demo_clock ∅).1 in
  Auth.getCurrentUser (1700000000002 + 86400000) st' = (st', Auth.current Samples.admin_session)
  ∧ (Auth.getCurrentUser (1700000000002 + 86400001) st').2 = Auth.null.
Proof.
  assert (Hlogin : Auth.loginUser "admin" "admin123" Samples.demo_clock ∅
                   = ((Auth.loginUser "admin" "admin123" Samples.demo_clock ∅).1,
                      Auth.success Samples.admin_session))
    by (vm_compute; reflexivity).
  destruct (login_session_lasts_24_hours _ _ _ _ _ _ Hlogin)
    as (_ & Hfresh & Hexpired).
  split.
  - apply Hfresh. cbn. lia.
  - apply Hexpired. cbn. lia.
Defined.

(** ** The interview flow and localStorage *)

Section InterviewStorage.

Import Interview.

(** Unfold one handler and split on what it tests. *)
Ltac handler_cases H :=
  unfold handle, when in H;
  repeat case_match; simplify_eq.

Lemma finalizeInterview_settled_frame c now r s k :
  k ≠ "sessionHistory" ->
  localStorage (finalizeInterview_settled c now r s) !! k = localStorage s !! k.
Proof.
  intros Hk. unfold finalizeInterview_settled.
  destruct r as [status data | message]; cbn; [| done].
  destruct (readSessionHistory _); cbn; [| done].
  by rewrite lookup_insert_ne.
Qed.

Lemma handle_frame e s s' k :
  handle e s = Some s' ->
  k ≠ "sessionHistory" ->
  localStorage s' !! k = localStorage s !! k.
Proof.
  intros H Hk. destruct e; handler_cases H;
    try (by apply finalizeInterview_settled_frame);
    try done.
  all: unfold generateQuestions_settled, startRecording, ondataavailable,
         stopRecording, uploadVideo_settled, loadAcousticFeatures_settled,
         nextQuestion, finalizeInterview;
       repeat case_match; done.
Qed.

Lemma run_frame es s s' k :
  run es s = Some s' ->
  k ≠ "sessionHistory" ->
  localStorage s' !! k = localStorage s !! k.
Proof.
  revert s. induction es as [| e es IH]; intros s H Hk; cbn in H.
  - by simplify_eq.
  - destruct (handle e s) as [s1 |] eqn:He; [| done].
    rewrite (IH _ H Hk). by eapply handle_frame.
Qed.

End InterviewStorage.

(** ** The overview dashboard and the interview flow *)

Section DashboardFacts.

Import Interview.

(** The mount effect of the dashboard looks at two keys only. *)
Lemma mount_reads_two_keys (t : Z) (st st' : storage) :
  st' !! Auth.AUTH_KEY = st !! Auth.AUTH_KEY ->
  st' !! "interview_history" = st !! "interview_history" ->
  (Dashboard.mount t st').2 = (Dashboard.mount t st).2.
Proof.
  intros Ha Hh.
  assert (Hread : ∀ x y : storage,
             x !! "interview_history" = y !! "interview_history" ->
             Dashboard.readHistory x = Dashboard.readHistory y).
  { intros x y Hxy. unfold Dashboard.readHistory. by rewrite Hxy. }
  assert (Hdel : Dashboard.readHistory (Auth.logoutUser st')
                 = Dashboard.readHistory (Auth.logoutUser st)).
  { apply Hread. unfold Auth.logoutUser.
    by rewrite !lookup_delete_ne. }
  unfold Auth.logoutUser in Hdel.
  unfold Dashboard.mount, Auth.getCurrentUser, Auth.logoutUser. rewrite Ha.
  destruct (st !! Auth.AUTH_KEY) as [[us | a | h | h | t0] |]; cbn;
    try destruct (expiresAt a <? t); try destruct (String.eqb t0 "");
    cbn; rewrite ?Hdel, ?(Hread st' st Hh);
    match goal with
    | |- context [Dashboard.readHistory ?x] =>
        destruct (Dashboard.readHistory x); reflexivity
    end.
Qed.

End DashboardFacts.

(** C10.  Whatever happens in the interview flow, every localStorage key
    other than ['sessionHistory'] keeps its value, ['interview_history'] in
    particular, so what the overview dashboard loads on mount (current user
    and interview history, hence its statistics and its list of recent
    interviews) is the same before and after; and when the reply to a
    finalize request arrives with a JSON body, the session is written to
    ['sessionHistory'] in front of the entries that the key holds (as the
    only entry when the key is absent). *)
Theorem finalize_writes_sessionHistory_only
    (es : list Interview.event) (s s' : Interview.state) :
  Interview.run es s = Some s' ->
  (∀ k, k ≠ "sessionHistory" ->
        Interview.localStorage s' !! k = Interview.localStorage s !! k)
  ∧ Interview.localStorage s' !! "interview_history"
    = Interview.localStorage s !! "interview_history"
  ∧ (∀ t, (Dashboard.mount t (Interview.localStorage s')).2
          = (Dashboard.mount t (Interview.localStorage s)).2)
  ∧ (∀ c now status data history,
        Interview.finalizing s' = Some c ->
        Interview.localStorage s' !! "sessionHistory"
        = Some (CSessionHistory history)
        ∨ Interview.localStorage s' !! "sessionHistory" = None ∧ history = [] ->
        ∃ s'',
          Interview.handle (Interview.finalize_settled now (Interview.Json status data)) s'
          = Some s''
          ∧ Interview.localStorage s''
            = <["sessionHistory" :=
                  CSessionHistory
                    ({| sd_sessionId := Interview.fc_sessionId c;
                        sd_position := Interview.fc_position c;
                        sd_timestamp := now;
                        sd_questions := Interview.fc_questions c;
                        sd_acousticData := Interview.fc_acousticData c |}
                     :: history)]> (Interview.localStorage s')).
Proof.
  intros Hrun.
  assert (Hframe : ∀ k, k ≠ "sessionHistory" ->
            Interview.localStorage s' !! k = Interview.localStorage s !! k)
    by (intros k Hk; by eapply run_frame).
  split; [exact Hframe |]. split; [by apply Hframe |]. split.
  - intros t. apply mount_reads_two_keys; by apply Hframe.
  - intros c now status data history Hc Hcell.
    exists (Interview.finalizeInterview_settled c now (Interview.Json status data) s').
    split.
    + unfold Interview.handle. by rewrite Hc.
    + assert (Hread : Interview.readSessionHistory (Interview.localStorage s')
                      = Returned history).
      { unfold Interview.readSessionHistory.
        destruct Hcell as [-> | [-> ->]]; reflexivity. }
      unfold Interview.finalizeInterview_settled.
      destruct s'. cbn -[Interview.readSessionHistory insert] in *.
      rewrite Hread. reflexivity.
Qed.

(** An interview of one question on a store that holds the session of an
    earlier interview and one entry of the overview dashboard: when the
    reply arrives, the new session stands in front of the earlier one, and
    the dashboard's key holds what it held. *)
Lemma finalize_writes_sessionHistory_only_witness :
  ∃ s' s'',
    Interview.run Samples.one_question_answered Samples.mounted_again = Some s'
    ∧ Interview.handle
        (Interview.finalize_settled 1700000100000 (Interview.Json 200 "done")) s'
      = Some s''
    ∧ Interview.localStorage s'' !! "sessionHistory"
      = Some (CSessionHistory
                [ {| sd_sessionId := Some "s1"; sd_position := "Engineer";
                     sd_timestamp := 1700000100000; sd_questions := 1;
                     sd_acousticData := ∅ |};
                  Samples.earlier_session ])
    ∧ Interview.localStorage s'' !! "interview_history"
      = Some (CInterviewHistory [Samples.earlier]).
Proof.
  destruct (Interview.run Samples.one_question_answered Samples.mounted_again)
    as [s' |] eqn:Hrun; [| vm_compute in Hrun; discriminate Hrun].
  destruct (finalize_writes_sessionHistory_only _ _ _ Hrun)
    as (_ & Hkey & _ & Hfin).
  assert (Hc : Interview.finalizing s'
               = Some {| Interview.fc_sessionId := Some "s1";
                         Interview.fc_position := "Engineer";
                         Interview.fc_questions := 1;
                         Interview.fc_acousticData := ∅ |})
    by (vm_compute in Hrun; injection Hrun as <-; reflexivity).
  assert (Hcell : Interview.localStorage s' !! "sessionHistory"
                  = Some (CSessionHistory [Samples.earlier_session]))
    by (vm_compute in Hrun; injection Hrun as <-; vm_compute; reflexivity).
  destruct (Hfin _ 1700000100000 200%nat "done" _ Hc (or_introl Hcell))
    as (s'' & Hhandle & Hstore).
  exists s', s''. split; [done |]. split; [exact Hhandle |].
  rewrite Hstore. split.
  - by rewrite lookup_insert_eq.
  - rewrite lookup_insert_ne by done. rewrite Hkey. vm_compute. reflexivity.
Defined.

(** ** The pages of the interview *)

Ltac unfold_handlers :=
  unfold Interview.generateQuestions, Interview.generateQuestions_settled,
    Interview.startRecording, Interview.ondataavailable, Interview.stopRecording,
    Interview.onstop, Interview.uploadVideo, Interview.uploadVideo_settled,
    Interview.loadAcousticFeatures, Interview.loadAcousticFeatures_settled,
    Interview.nextQuestion, Interview.finalizeInterview,
    Interview.finalizeInterview_settled, Interview.progress_tick,
    Interview.show_results, Interview.emit in *.

Ltac simplify_state :=
  cbn -[bool_decide Interview.readSessionHistory Interview.ok Z.ltb Z.of_nat
        Z.sub Nat.ltb Nat.leb insert Interview.remove_first] in *;
  unfold constant in *.

(** Take the state apart, run the handler of [H : handle e s = Some s'] on
    it and split on the tests that the handler makes. *)
Ltac run_handler H :=
  repeat match goal with
         | r : Interview.reply _ |- _ => destruct r
         | p : (_ * _)%type |- _ => destruct p
         end;
  lazymatch type of H with
  | Interview.handle _ ?s = _ => destruct s
  end;
  unfold Interview.handle, Interview.when in H; unfold_handlers;
  repeat case_match;
  simplify_state;
  simplify_eq;
  repeat match goal with
         | H : _ && _ = true |- _ => apply andb_true_iff in H as [? ?]
         | H : bool_decide _ = true |- _ => apply bool_decide_eq_true in H
         | H : negb _ = true |- _ => apply negb_true_iff in H
         end;
  simplify_state; subst.

Ltac use_facts :=
  repeat match goal with
         | H : is_Some None |- _ => destruct H as [? H]; discriminate H
         | H : ?P -> _, H' : ?P |- _ => specialize (H H')
         | H : ?a = ?a -> _ |- _ => specialize (H eq_refl)
         | H : is_Some (Some ?x) -> _ |- _ => specialize (H (mk_is_Some _ _ eq_refl))
         | H : _ ∧ _ |- _ => destruct H
         | H : ?x = _ |- _ => is_var x; subst x
         end.

Section InterviewPages.

Import Interview.

Lemma pages_ok_initial n e st : pages_ok (initial n e st).
Proof.
  unfold pages_ok; cbn. repeat split; try done.
Qed.

Lemma pages_ok_handle e s s' :
  pages_ok s -> handle e s = Some s' -> pages_ok s'.
Proof.
  unfold pages_ok. intros (Hg & Ht & Hf) H.
  destruct e; run_handler H; repeat split; intros; use_facts; congruence.
Qed.

Lemma pages_ok_run es s s' :
  pages_ok s -> run es s = Some s' -> pages_ok s'.
Proof.
  revert s. induction es as [| e es IH]; intros s Hs H; cbn in H.
  - by simplify_eq.
  - destruct (handle e s) as [s1 |] eqn:He; [| done].
    eapply IH; [| exact H]. by eapply pages_ok_handle.
Qed.

(** While a finalize request is in flight, no other event leaves the
    processing page or touches the request. *)
Lemma waiting_handle e s s' c :
  pages_ok s ->
  finalizing s = Some c ->
  (∀ now r, e ≠ finalize_settled now r) ->
  handle e s = Some s' ->
  step s' = processing ∧ finalizing s' = Some c
  ∧ (processingProgress s' <= Nat.max (processingProgress s) 94)%nat.
Proof.
  unfold pages_ok. intros (Hg & Ht & Hf) Hc Hne H.
  rewrite Hc in Hf. specialize (Hf (mk_is_Some _ _ eq_refl)).
  destruct e; try (by exfalso; eapply Hne);
    run_handler H; use_facts; repeat split; try congruence; try lia.
  destruct (Nat.leb_spec 90 processingProgress0); lia.
Qed.

Lemma waiting_run es s s' c :
  pages_ok s ->
  finalizing s = Some c ->
  Forall (λ e, ∀ now r, e ≠ finalize_settled now r) es ->
  run es s = Some s' ->
  step s' = processing ∧ finalizing s' = Some c
  ∧ (processingProgress s' <= Nat.max (processingProgress s) 94)%nat.
Proof.
  revert s. induction es as [| e es IH]; intros s Hs Hc Hes H; cbn in H.
  - simplify_eq. destruct Hs as (_ & _ & Hf).
    rewrite Hc in Hf. split; [by apply Hf | split; [done | lia]].
  - destruct (handle e s) as [s1 |] eqn:He; [| done].
    apply Forall_cons in Hes as [Hne Hes].
    destruct (waiting_handle _ _ _ _ Hs Hc Hne He) as (_ & Hc1 & Hp1).
    destruct (IH s1 (pages_ok_handle _ _ _ Hs He) Hc1 Hes H) as (? & ? & ?).
    repeat split; try done. lia.
Qed.

(** Once a finalize request has failed, the processing page is final. *)
Lemma stuck_handle e s s' :
  pages_ok s ->
  step s = processing -> finalizing s = None -> results_timer s = false ->
  handle e s = Some s' ->
  step s' = processing ∧ finalizing s' = None ∧ results_timer s' = false.
Proof.
  unfold pages_ok. intros (Hg & Ht & Hf) Hp Hn Hr H.
  destruct e; run_handler H; use_facts; repeat split; congruence.
Qed.

Lemma stuck_run es s s' :
  pages_ok s ->
  step s = processing -> finalizing s = None -> results_timer s = false ->
  run es s = Some s' ->
  step s' = processing.
Proof.
  revert s. induction es as [| e es IH]; intros s Hs Hp Hn Hr H; cbn in H.
  - by simplify_eq.
  - destruct (handle e s) as [s1 |] eqn:He; [| done].
    destruct (stuck_handle _ _ _ Hs Hp Hn Hr He) as (? & ? & ?).
    eapply (IH s1); try done. by eapply pages_ok_handle.
Qed.

End InterviewPages.

Section InterviewProgress.

Import Interview.

Lemma progress_handle e s s' :
  pages_ok s ->
  ((∃ k, processingProgress s = k * 5 ∧ k <= 20)
   ∧ (progressInterval s = true -> is_Some (finalizing s))
   ∧ (is_Some (finalizing s) -> processingProgress s <= 90)
   ∧ (results_timer s = true -> processingProgress s = 100)
   ∧ (step s = results -> processingProgress s = 100))%nat ->
  handle e s = Some s' ->
  ((∃ k, processingProgress s' = k * 5 ∧ k <= 20)
   ∧ (progressInterval s' = true -> is_Some (finalizing s'))
   ∧ (is_Some (finalizing s') -> processingProgress s' <= 90)
   ∧ (results_timer s' = true -> processingProgress s' = 100)
   ∧ (step s' = results -> processingProgress s' = 100))%nat.
Proof.
  unfold pages_ok. intros (Hg & Ht & Hf) ((k & Hk & Hle) & Hi & Hn & Hr & Hres) H.
  destruct e; run_handler H.
  all: repeat case_match.
  all: repeat match goal with
              | H : (_ <=? _)%nat = true |- _ => apply Nat.leb_le in H
              | H : (_ <=? _)%nat = false |- _ => apply Nat.leb_gt in H
              end.
  all: split; [first [ exists k; split; [done | lia]
                     | exists 0%nat; split; [done | lia]
                     | exists 20%nat; split; [done | lia]
                     | exists (S k); split; lia ] |].
  all: repeat split; intros; use_facts; try congruence; try lia; eauto.
Qed.

Lemma progress_run es s s' :
  pages_ok s ->
  ((∃ k, processingProgress s = k * 5 ∧ k <= 20)
   ∧ (progressInterval s = true -> is_Some (finalizing s))
   ∧ (is_Some (finalizing s) -> processingProgress s <= 90)
   ∧ (results_timer s = true -> processingProgress s = 100)
   ∧ (step s = results -> processingProgress s = 100))%nat ->
  run es s = Some s' ->
  ((∃ k, processingProgress s' = k * 5 ∧ k <= 20)
   ∧ (progressInterval s' = true -> is_Some (finalizing s'))
   ∧ (is_Some (finalizing s') -> processingProgress s' <= 90)
   ∧ (results_timer s' = true -> processingProgress s' = 100)
   ∧ (step s' = results -> processingProgress s' = 100))%nat.
Proof.
  revert s. induction es as [| e es IH]; intros s Hp Hs H; cbn in H.
  - by simplify_eq.
  - destruct (handle e s) as [s1 |] eqn:He; [| done].
    eapply (IH s1); [by eapply pages_ok_handle | | exact H].
    by eapply progress_handle.
Qed.

(** The progress timer runs as long as the finalize request is pending. *)
Lemma interval_handle e s s' :
  (is_Some (finalizing s) -> progressInterval s = true) ->
  handle e s = Some s' ->
  is_Some (finalizing s') -> progressInterval s' = true.
Proof.
  intros Hi H.
  destruct e; run_handler H; intros; use_facts; try congruence; eauto.
Qed.

Lemma interval_run es s s' :
  (is_Some (finalizing s) -> progressInterval s = true) ->
  run es s = Some s' ->
  is_Some (finalizing s') -> progressInterval s' = true.
Proof.
  revert s. induction es as [| e es IH]; intros s Hs H; cbn in H.
  - by simplify_eq.
  - destruct (handle e s) as [s1 |] eqn:He; [| done].
    eapply (IH s1); [| exact H]. by eapply interval_handle.
Qed.

(** [n] ticks in a row: 5 more per tick, up to 90. *)
Lemma ticks_run n s :
  progressInterval s = true ->
  (∃ k, processingProgress s = k * 5)%nat ->
  (processingProgress s <= 90)%nat ->
  ∃ s', run (replicate n progress_interval_fired) s = Some s'
        ∧ processingProgress s' = Nat.min (processingProgress s + 5 * n) 90.
Proof.
  revert s. induction n as [| n IH]; intros s Hi (k & Hk) Hle.
  - exists s. split; [done |]. lia.
  - cbn [replicate run]. unfold handle, when. rewrite Hi.
    destruct (IH (progress_tick s)) as (s' & Hrun & Hp).
    + by destruct s.
    + destruct s as [? ? ? ? ? ? ? ? ? ? p]; unfold progress_tick; simplify_state.
      destruct (Nat.leb_spec 90 p); [exists k | exists (S k)]; lia.
    + destruct s as [? ? ? ? ? ? ? ? ? ? p]; unfold progress_tick; simplify_state.
      destruct (Nat.leb_spec 90 p); lia.
    + exists s'. split; [exact Hrun |]. rewrite Hp.
      destruct s as [? ? ? ? ? ? ? ? ? ? p]; unfold progress_tick; simplify_state.
      destruct (Nat.leb_spec 90 p); lia.
Qed.

End InterviewProgress.

(** C7.  The component puts no time limit on finalizing.  From the moment
    the finalize request is in flight, whatever else happens and however
    many times the progress timer fires, the component stays on the
    processing page with the request pending; each tick of the timer adds 5
    to the progress figure until it stands at 90, where it holds.  Only the
    reply ends the wait.  A JSON body sets the progress to 100, puts the
    session in front of the stored session history (when the key holds a
    history or is absent) and starts the timer whose firing shows the
    results page and calls [onSessionComplete].  A rejection raises an
    alert, and then the processing page is never left again. *)
Theorem finalize_waits_for_the_reply
    (user_name user_email : string) (st : storage)
    (es0 es : list Interview.event) (s s' : Interview.state)
    (c : Interview.finalize_closure) :
  Interview.run es0 (Interview.initial user_name user_email st) = Some s ->
  Interview.finalizing s = Some c ->
  Forall (λ e, ∀ now r, e ≠ Interview.finalize_settled now r) es ->
  Interview.run es s = Some s' ->
  Interview.step s' = Interview.processing
  ∧ Interview.finalizing s' = Some c
  ∧ (Interview.processingProgress s'
     <= Nat.max (Interview.processingProgress s) 94)%nat
  ∧ (∀ n,
        ∃ s'', Interview.run (replicate n Interview.progress_interval_fired) s'
               = Some s''
               ∧ Interview.processingProgress s''
                 = Nat.min (Interview.processingProgress s' + 5 * n) 90)
  ∧ (∀ now status data,
        ∃ s'', Interview.handle
                 (Interview.finalize_settled now (Interview.Json status data)) s'
               = Some s''
               ∧ Interview.processingProgress s'' = 100%nat
               ∧ ∀ history,
                   Interview.localStorage s' !! "sessionHistory"
                   = Some (CSessionHistory history)
                   ∨ Interview.localStorage s' !! "sessionHistory" = None
                     ∧ history = [] ->
                   Interview.localStorage s'' !! "sessionHistory"
                   = Some (CSessionHistory
                             ({| sd_sessionId := Interview.fc_sessionId c;
                                 sd_position := Interview.fc_position c;
                                 sd_timestamp := now;
                                 sd_questions := Interview.fc_questions c;
                                 sd_acousticData := Interview.fc_acousticData c |}
                              :: history))
                   ∧ ∃ s3, Interview.handle Interview.results_timer_fired s''
                           = Some s3
                           ∧ Interview.step s3 = Interview.results
                           ∧ Interview.log s3
                             = Interview.log s' ++ [Interview.onSessionComplete])
  ∧ (∀ now message,
        ∃ s'', Interview.handle
                 (Interview.finalize_settled now (Interview.Rejected message)) s'
               = Some s''
               ∧ Interview.log s''
                 = Interview.log s'
                   ++ [Interview.alert ("Error finalizing interview: " ++ message)]
               ∧ ∀ es' s3, Interview.run es' s'' = Some s3 ->
                           Interview.step s3 = Interview.processing).
Proof.
  intros Hrun0 Hc Hes Hrun.
  assert (Hs : Interview.pages_ok s)
    by (eapply pages_ok_run; [apply pages_ok_initial | exact Hrun0]).
  assert (Hs' : Interview.pages_ok s') by (by eapply pages_ok_run).
  destruct (waiting_run _ _ _ _ Hs Hc Hes Hrun) as (Hp & Hc' & Hprog).
  assert (Hfig : ((∃ k, Interview.processingProgress s' = k * 5 ∧ k <= 20)
                  ∧ (Interview.progressInterval s' = true ->
                     is_Some (Interview.finalizing s'))
                  ∧ (is_Some (Interview.finalizing s') ->
                     Interview.processingProgress s' <= 90)
                  ∧ (Interview.results_timer s' = true ->
                     Interview.processingProgress s' = 100)
                  ∧ (Interview.step s' = Interview.results ->
                     Interview.processingProgress s' = 100))%nat).
  { eapply (progress_run es s s' Hs); [| exact Hrun].
    eapply (progress_run es0 _ s (pages_ok_initial user_name user_email st));
      [| exact Hrun0].
    cbn. split; [exists 0%nat; split; [done | lia] |].
    repeat split; try done; by intros [? ?]. }
  assert (Hint : Interview.progressInterval s' = true).
  { eapply (interval_run es s s'); [| exact Hrun | by rewrite Hc'].
    eapply (interval_run es0 _ s); [| exact Hrun0]. by intros [? ?]. }
  destruct Hfig as ((k & Hk & _) & _ & Hle & _).
  split; [done |]. split; [done |]. split; [done |]. split; [| split].
  - intros n. apply ticks_run; [done | by exists k |].
    apply Hle. by rewrite Hc'.
  - intros now status data.
    exists (Interview.finalizeInterview_settled c now (Interview.Json status data) s').
    split; [unfold Interview.handle; by rewrite Hc' |].
    split.
    { unfold Interview.finalizeInterview_settled. destruct s'; cbn.
      by case_match. }
    intros history Hcell.
    assert (Hread : Interview.readSessionHistory (Interview.localStorage s')
                    = Returned history).
    { unfold Interview.readSessionHistory.
      destruct Hcell as [-> | [-> ->]]; reflexivity. }
    unfold Interview.finalizeInterview_settled.
    destruct s'. cbn -[Interview.readSessionHistory insert] in *.
    rewrite Hread. cbn -[insert].
    split; [by rewrite lookup_insert_eq |].
    eexists. split; [reflexivity |]. by split.
  - intros now message.
    exists (Interview.finalizeInterview_settled c now (Interview.Rejected message) s').
    assert (He : Interview.handle
                   (Interview.finalize_settled now (Interview.Rejected message)) s'
                 = Some (Interview.finalizeInterview_settled c now
                           (Interview.Rejected message) s'))
      by (unfold Interview.handle; by rewrite Hc').
    split; [exact He |]. split.
    + unfold Interview.finalizeInterview_settled, Interview.emit.
      by destruct s'.
    + intros es' s3 Hrun3.
      assert (Hs'' := pages_ok_handle _ _ _ Hs' He).
      eapply stuck_run; [exact Hs'' | | | | exact Hrun3].
      * unfold Interview.finalizeInterview_settled, Interview.emit.
        destruct s'; cbn in *. done.
      * unfold Interview.finalizeInterview_settled, Interview.emit.
        by destruct s'.
      * unfold Interview.finalizeInterview_settled, Interview.emit.
        destruct s'; cbn in *.
        destruct Hs' as (_ & Ht & _). cbn in Ht.
        destruct results_timer; [| done].
        destruct (Ht eq_refl) as [_ Hnone]. congruence.
Qed.

(** An interview of one question on a store that holds an earlier session.
    Seven ticks (14 seconds) after the finalize request the figure stands
    at 35 and the page is the processing page; twenty ticks later it stands
    at 90; the reply then sets it to 100 and puts the session in front of
    the earlier one, and the timer shows the results page. *)
Lemma finalize_waits_for_the_reply_witness :
  ∃ s' s20 s'' s3,
    Interview.run
      (Samples.one_question_answered ++ replicate 7 Interview.progress_interval_fired)
      Samples.mounted_again = Some s'
    ∧ Interview.step s' = Interview.processing
    ∧ Interview.processingProgress s' = 35%nat
    ∧ Interview.run (replicate 20 Interview.progress_interval_fired) s' = Some s20
    ∧ Interview.processingProgress s20 = 90%nat
    ∧ Interview.handle
        (Interview.finalize_settled 1700000100000 (Interview.Json 200 "done")) s'
      = Some s''
    ∧ Interview.processingProgress s'' = 100%nat
    ∧ Interview.localStorage s'' !! "sessionHistory"
      = Some (CSessionHistory
                [ {| sd_sessionId := Some "s1"; sd_position := "Engineer";
                     sd_timestamp := 1700000100000; sd_questions := 1;
                     sd_acousticData := ∅ |};
                  Samples.earlier_session ])
    ∧ Interview.handle Interview.results_timer_fired s'' = Some s3
    ∧ Interview.step s3 = Interview.results.
Proof.
  destruct (Interview.run Samples.one_question_answered
              (Interview.initial "Ada" "ada@example.com" Samples.returning_store))
    as [s |] eqn:H0; [| vm_compute in H0; discriminate H0].
  destruct (Interview.run (replicate 7 Interview.progress_interval_fired) s)
    as [s' |] eqn:H1;
    [| vm_compute in H0; injection H0 as <-; vm_compute in H1; discriminate H1].
  assert (Hc : Interview.finalizing s
               = Some {| Interview.fc_sessionId := Some "s1";
                         Interview.fc_position := "Engineer";
                         Interview.fc_questions := 1;
                         Interview.fc_acousticData := ∅ |})
    by (vm_compute in H0; injection H0 as <-; reflexivity).
  assert (Hes : Forall (λ e, ∀ now r, e ≠ Interview.finalize_settled now r)
                  (replicate 7 Interview.progress_interval_fired)).
  { apply Forall_forall. intros e He.
    apply elem_of_replicate in He as [-> _]. intros now r. discriminate. }
  destruct (finalize_waits_for_the_reply _ _ _ _ _ _ _ _ H0 Hc Hes H1)
    as (Hstep & _ & _ & Hticks & Hreply & _).
  assert (Hp : Interview.processingProgress s' = 35%nat)
    by (vm_compute in H0; injection H0 as <-;
        vm_compute in H1; injection H1 as <-; reflexivity).
  assert (Hcell : Interview.localStorage s' !! "sessionHistory"
                  = Some (CSessionHistory [Samples.earlier_session]))
    by (vm_compute in H0; injection H0 as <-;
        vm_compute in H1; injection H1 as <-; vm_compute; reflexivity).
  destruct (Hticks 20%nat) as (s20 & Hrun20 & Hp20).
  destruct (Hreply 1700000100000 200%nat "done") as (s'' & Hhandle & H100 & Hhist).
  destruct (Hhist _ (or_introl Hcell)) as (Hstore & s3 & Htimer & Hres & _).
  exists s', s20, s'', s3.
  split.
  { unfold Samples.mounted_again.
    rewrite <- H1. clear -H0. revert H0.
    generalize (Interview.initial "Ada" "ada@example.com" Samples.returning_store).
    generalize Samples.one_question_answered.
    intros es. induction es as [| e es IH]; intros s0 H0; cbn in *.
    - by injection H0 as ->.
    - destruct (Interview.handle e s0); [by apply IH | done]. }
  split; [exact Hstep |]. split; [exact Hp |]. split; [exact Hrun20 |].
  split; [by rewrite Hp20, Hp |]. split; [exact Hhandle |].
  split; [exact H100 |]. split; [exact Hstore |]. split; [exact Htimer |].
  exact Hres.
Defined.

(** C7, as stated, fails: two and a half hours after the finalize request
    (4500 ticks of the 2-second progress timer) with no reply, the component
    is still on the processing page, the request still pending, the progress
    at 90, and nothing has been reported. *)
Lemma finalize_still_waiting_after_hours :
  (λ s, (Interview.step s, Interview.processingProgress s,
         Interview.finalizing s, Interview.log s))
  <$> Interview.run
        (Samples.one_question_answered
         ++ replicate 4500 Interview.progress_interval_fired)
        Samples.mounted
  = Some (Interview.processing, 90%nat,
          Some {| Interview.fc_sessionId := Some "s1";
                  Interview.fc_position := "Engineer";
                  Interview.fc_questions := 1;
                  Interview.fc_acousticData := ∅ |},
          [ Interview.POST_generate_questions Samples.demo_form;
            Interview.POST_upload_video (Some "s1") 0 [Samples.long_chunk];
            Interview.console_log "Upload successful: saved";
            Interview.POST_finalize (Some "s1") ]).
Proof. vm_compute. reflexivity. Qed.

(** ** Recording and uploading *)

Section RecordingFacts.

Import Interview.



End RecordingFacts.




(** C5.  The client does not protect an uploaded recording.  On the
    interview page, with no recording running, Start Recording is on offer
    also for a question that already has a recording; recording again, with
    any non-empty chunk of media, replaces the stored recording of the
    current question, leaves the other questions' recordings alone, and
    posts the new recording for the same session and question. *)
Theorem recording_again_replaces_the_upload
    (s : Interview.state) (old : Interview.blob) (c : Interview.chunk) :
  Interview.step s = Interview.interview ->
  Interview.isRecording s = false ->
  Interview.stopping s = false ->
  Interview.recordedVideos s !! Interview.currentQuestionIndex s = Some old ->
  (0 < Interview.chunk_size c)%nat ->
  ∃ s',
    Interview.run
      [ Interview.click_start_recording (Interview.Json 200 ());
        Interview.click_stop_recording;
        Interview.data_available c;
        Interview.recorder_stopped ] s
    = Some s'
    ∧ Interview.recordedVideos s' !! Interview.currentQuestionIndex s = Some [c]
    ∧ (∀ j, j ≠ Interview.currentQuestionIndex s ->
            Interview.recordedVideos s' !! j = Interview.recordedVideos s !! j)
    ∧ Interview.log s'
      = Interview.log s
        ++ [Interview.POST_upload_video (Interview.sessionId s)
              (Interview.currentQuestionIndex s) [c]].
Proof.
  intros Hstep Hrec Hstop Hold Hc.
  apply Nat.ltb_lt in Hc.
  destruct s; cbn in *; subst.
  eexists. split; [| split; [| split]].
  - unfold Interview.run, Interview.handle, Interview.when; cbn.
    unfold Interview.ondataavailable; cbn. rewrite Hc. cbn. reflexivity.
  - cbn. by rewrite lookup_insert_eq.
  - intros j Hj. cbn. by rewrite lookup_insert_ne.
  - reflexivity.
Qed.

(** A question answered with three seconds, uploaded, then answered again
    with 0.4 seconds: the second recording is the stored one. *)
Lemma recording_again_replaces_the_upload_witness :
  ∃ s',
    Interview.run Samples.answered_twice Samples.mounted = Some s'
    ∧ Interview.recordedVideos s' !! 0%nat = Some [Samples.short_chunk].
Proof.
  pose (s := default Samples.mounted
               (Interview.run
                  (Samples.open_session "s1" ["Tell me about yourself."]
                   ++ Samples.record_answer Samples.long_chunk
                   ++ [ Interview.upload_settled (Some "s1") 0
                          (Interview.Json 200 "saved") ])
                  Samples.mounted)).
  destruct (recording_again_replaces_the_upload s [Samples.long_chunk]
              Samples.short_chunk)
    as (s' & Hrun & Hnew & _);
    [ vm_compute; reflexivity .. | vm_compute; lia | ].
  exists s'. split; [| exact Hnew].
  rewrite <- Hrun. vm_compute. reflexivity.
Defined.

(** C5, as stated, fails: question 0 of session s1 has its recording
    uploaded and acknowledged; a second recording is neither refused nor
    kept apart: it takes the place of the first and is posted as well. *)
Lemma uploaded_recording_is_overwritten :
  (λ s, (Interview.recordedVideos s, Interview.log s))
  <$> Interview.run Samples.answered_twice Samples.mounted
  = Some ({[ 0%nat := [Samples.short_chunk] ]},
          [ Interview.POST_generate_questions Samples.demo_form;
            Interview.POST_upload_video (Some "s1") 0 [Samples.long_chunk];
            Interview.console_log "Upload successful: saved";
            Interview.POST_upload_video (Some "s1") 0 [Samples.short_chunk] ]).
Proof. vm_compute. reflexivity. Qed.

(** ** The order of the session states *)

(** C6.  The specification's order Created → InProgress → Finalizing is
    broken by a second interview.  "Start New Interview" resets the page
    only: the question index and the recordings of the finished interview
    stay.  When the questions of session s2 arrive, the session is Created,
    no answer has been sent for it, yet the old recording of question 0 puts
    "Finish Interview" on offer; pressing it sends the finalize request for
    s2 and the session is Finalizing without ever having been InProgress. *)
Theorem second_interview_skips_InProgress :
  let opened := Interview.run Samples.second_interview_opened Samples.mounted in
  let pressed := opened ≫= Interview.handle Interview.click_next in
  (λ s, (Interview.sessionId s, Session.status_of s,
         Interview.currentQuestionIndex s, Interview.recordedVideos s))
  <$> opened
  = Some (Some "s2", Some Session.Created, 0%nat, {[ 0%nat := [Samples.long_chunk] ]})
  ∧ (λ s, (Session.status_of s, Session.answered (Some "s2") (Interview.log s),
           Interview.log s))
    <$> pressed
    = Some (Some Session.Finalizing, false,
            [ Interview.POST_generate_questions Samples.demo_form;
              Interview.POST_upload_video (Some "s1") 0 [Samples.long_chunk];
              Interview.console_log "Upload successful: saved";
              Interview.POST_finalize (Some "s1");
              Interview.onSessionComplete;
              Interview.POST_generate_questions Samples.demo_form;
              Interview.POST_finalize (Some "s2") ])
  ∧ Session.respects (Some Session.Created) (Some Session.Finalizing) = false.
Proof. vm_compute. repeat split. Qed.

(** ** The analysis dashboard *)

Section AnalysisFacts.

Import Analysis.

Lemma filter_length_le {A} (P : A -> Prop) `{∀ x, Decision (P x)} (l : list A) :
  (length (filter P l) <= length l)%nat.
Proof. apply length_filter. Qed.

Lemma rows_lookup (qs : list question_analysis) (sel i : nat) (q : question_analysis) :
  qs !! i = Some q ->
  imap (status_of sel) qs !! i = Some (status_of sel i q).
Proof. intros Hq. by rewrite list_lookup_imap, Hq. Qed.

(** With no analysis anywhere, both filters are empty. *)
Lemma nothing_analysed (qs : list question_analysis) :
  Forall (λ q, speech_analysis q = None ∧ video_analysis q = None) qs ->
  filter (λ q, is_Some (speech_analysis q)) qs = []
  ∧ filter (λ q, is_Some (video_analysis q)) qs = [].
Proof.
  induction 1 as [| q qs [Hs Hv] _ [IHs IHv]]; [done |].
  rewrite !filter_cons, IHs, IHv, Hs, Hv.
  split; by rewrite decide_False by (by intros [? ?]).
Qed.

Lemma currentQuestion_read (d : analysisData) (i : nat) :
  currentQuestion (Some (read_data d)) i = read_question <$> currentQuestion (Some d) i.
Proof. unfold currentQuestion. cbn. by rewrite list_lookup_fmap. Qed.

End AnalysisFacts.

(** C2.  The figure that the overview reports is not the ratio of analysed
    questions but [Math.round((s + v) / (2 n) * 100)] percent, where [s] and
    [v] count the questions that have a speech and a video analysis and [n]
    is the number of questions.  Each status row belongs to one question and
    shows that question only.  For three questions of which two have both
    analyses and the third has none, the figure is 67, and the rows and the
    speech and video tabs of the first two questions are what they would be
    with any other third question. *)
Theorem overview_reports_a_rounded_percentage
    (d : Analysis.analysisData) (selectedQuestion : nat) :
  let qs := Analysis.question_analyses d in
  ∃ o,
    Analysis.renderOverview (Some d) selectedQuestion = Some o
    ∧ Analysis.totalQuestions o = length qs
    ∧ Analysis.speechAnalyzed o
      = length (filter (λ q, is_Some (Analysis.speech_analysis q)) qs)
    ∧ Analysis.videoAnalyzed o
      = length (filter (λ q, is_Some (Analysis.video_analysis q)) qs)
    ∧ (Analysis.speechAnalyzed o + Analysis.videoAnalyzed o
       <= 2 * Analysis.totalQuestions o)%nat
    ∧ Analysis.analysisComplete o
      = JS.round (JS.of_nat (Analysis.speechAnalyzed o + Analysis.videoAnalyzed o)
                  / JS.of_nat (Analysis.totalQuestions o * 2) * 100)%float
    ∧ (∀ i q, qs !! i = Some q ->
              Analysis.rows o !! i = Some (Analysis.status_of selectedQuestion i q))
    ∧ (∀ q1 q2 q3,
          qs = [q1; q2; q3] ->
          is_Some (Analysis.speech_analysis q1) -> is_Some (Analysis.video_analysis q1) ->
          is_Some (Analysis.speech_analysis q2) -> is_Some (Analysis.video_analysis q2) ->
          Analysis.speech_analysis q3 = None -> Analysis.video_analysis q3 = None ->
          Analysis.analysisComplete o = JS.Int 67
          ∧ ∀ q3' i, (i < 2)%nat ->
              let d' := {| Analysis.question_analyses := [q1; q2; q3'] |} in
              Analysis.renderSpeechAnalysis (Some d') i
              = Analysis.renderSpeechAnalysis (Some d) i
              ∧ Analysis.renderVideoAnalysis (Some d') i
                = Analysis.renderVideoAnalysis (Some d) i
              ∧ (Analysis.rows <$> Analysis.renderOverview (Some d') selectedQuestion)
                ≫= (.!! i)
                = Analysis.rows o !! i).
Proof.
  intros qs.
  pose (s := length (filter (λ q, is_Some (Analysis.speech_analysis q)) qs)).
  pose (v := length (filter (λ q, is_Some (Analysis.video_analysis q)) qs)).
  exists {| Analysis.totalQuestions := length qs;
            Analysis.speechAnalyzed := s;
            Analysis.videoAnalyzed := v;
            Analysis.analysisComplete := Analysis.complete s v (length qs);
            Analysis.rows := imap (Analysis.status_of selectedQuestion) qs |}.
  cbn [Analysis.totalQuestions Analysis.speechAnalyzed Analysis.videoAnalyzed
       Analysis.analysisComplete Analysis.rows].
  split; [reflexivity |]. split; [reflexivity |]. split; [reflexivity |].
  split; [reflexivity |]. split.
  { pose proof (filter_length_le (λ q, is_Some (Analysis.speech_analysis q)) qs).
    pose proof (filter_length_le (λ q, is_Some (Analysis.video_analysis q)) qs).
    subst s v. lia. }
  split; [reflexivity |]. split.
  { intros i q Hq. by apply rows_lookup. }
  intros q1 q2 q3 Hqs [a1 Ha1] [b1 Hb1] [a2 Ha2] [b2 Hb2] Hs3 Hv3.
  assert (Hs : s = 2%nat).
  { subst s. rewrite Hqs, !filter_cons, filter_nil, Ha1, Ha2, Hs3.
    rewrite !decide_True by (by eexists).
    by rewrite decide_False by (by intros [? ?]). }
  assert (Hv : v = 2%nat).
  { subst v. rewrite Hqs, !filter_cons, filter_nil, Hb1, Hb2, Hv3.
    rewrite !decide_True by (by eexists).
    by rewrite decide_False by (by intros [? ?]). }
  split.
  { rewrite Hs, Hv, Hqs. vm_compute. reflexivity. }
  intros q3' i Hi.
  assert (Hd : d = {| Analysis.question_analyses := [q1; q2; q3] |})
    by (destruct d; cbn in *; by subst).
  rewrite Hd, Hqs.
  destruct i as [| [| i]]; [| | lia]; repeat split.
Qed.

(** C2, as stated, fails.  With one of three questions never uploaded the
    figure reported is 67 (percent), which is not 2/3; and a question with a
    speech analysis but no video analysis counts for a half: one such
    question gives 50 percent, where the ratio of analysed questions to
    questions can only be 0 or 1. *)
Lemma overview_figure_is_not_the_ratio :
  Analysis.analysisComplete <$> Analysis.renderOverview (Some Samples.two_of_three) 0
  = Some (JS.Int 67)
  ∧ 67 * 3 ≠ 2 * 100
  ∧ Analysis.analysisComplete <$> Analysis.renderOverview (Some Samples.speech_only) 0
    = Some (JS.Int 50).
Proof. split; [by vm_compute | split; [lia | by vm_compute]]. Qed.

(** C3.  For a session with at least one question and no analysed question
    the overview is defined: both counts are 0, the figure is 0 percent (a
    number, not NaN), every status row shows the two "missing" icons, and the
    speech and video tabs show their "not available" notice for every
    question.  The overview holds no recommendation list and no note. *)
Theorem overview_of_an_unanalysed_session
    (d : Analysis.analysisData) (selectedQuestion : nat) :
  (0 < length (Analysis.question_analyses d))%nat ->
  Z.of_nat (length (Analysis.question_analyses d)) < 2 ^ 32 ->
  Forall (λ q, Analysis.speech_analysis q = None ∧ Analysis.video_analysis q = None)
         (Analysis.question_analyses d) ->
  ∃ o,
    Analysis.renderOverview (Some d) selectedQuestion = Some o
    ∧ Analysis.totalQuestions o = length (Analysis.question_analyses d)
    ∧ Analysis.speechAnalyzed o = 0%nat
    ∧ Analysis.videoAnalyzed o = 0%nat
    ∧ Analysis.analysisComplete o = JS.Int 0
    ∧ Forall (λ r, Analysis.row_speech r = Analysis.AlertCircle
                   ∧ Analysis.row_video r = Analysis.AlertCircle)
             (Analysis.rows o)
    ∧ ∀ i, Analysis.renderSpeechAnalysis (Some d) i = Returned Analysis.not_available
           ∧ Analysis.renderVideoAnalysis (Some d) i = Returned Analysis.not_available.
Proof.
  intros Hpos Hmax Hnone.
  destruct (nothing_analysed _ Hnone) as [Hs Hv].
  eexists. split; [reflexivity |].
  cbn [Analysis.totalQuestions Analysis.speechAnalyzed Analysis.videoAnalyzed
       Analysis.analysisComplete Analysis.rows].
  rewrite Hs, Hv.
  split; [reflexivity |]. split; [reflexivity |]. split; [reflexivity |].
  split; [| split].
  - unfold Analysis.complete.
    change (JS.of_nat (length [] + length [])) with 0%float.
    apply round_zero_share, of_nat_nonzero. lia.
  - apply Forall_lookup. intros i r Hr.
    rewrite list_lookup_imap in Hr.
    destruct (Analysis.question_analyses d !! i) as [q |] eqn:Hq; [| done].
    cbn in Hr. injection Hr as <-.
    rewrite Forall_lookup in Hnone. destruct (Hnone i q Hq) as [Hqs Hqv].
    unfold Analysis.status_of; cbn. by rewrite Hqs, Hqv.
  - intros i.
    unfold Analysis.renderSpeechAnalysis, Analysis.renderVideoAnalysis,
      Analysis.currentQuestion. cbn.
    destruct (Analysis.question_analyses d !! i) as [q |] eqn:Hq; cbn; [| done].
    rewrite Forall_lookup in Hnone. destruct (Hnone i q Hq) as [Hqs Hqv].
    by rewrite Hqs, Hqv.
Qed.

(** One question that was never uploaded: 0 percent. *)
Lemma overview_of_an_unanalysed_session_witness :
  Analysis.analysisComplete
  <$> Analysis.renderOverview (Some Samples.nothing_yet) 0
  = Some (JS.Int 0).
Proof.
  destruct (overview_of_an_unanalysed_session Samples.nothing_yet 0)
    as (o & Ho & _ & _ & _ & Hc & _).
  - cbn. lia.
  - cbn. lia.
  - repeat constructor.
  - rewrite Ho. cbn. by rewrite Hc.
Defined.

(** C3, as stated, fails.  A session without questions has no analysed
    question, and its figure is NaN; with one unanalysed question the
    overview consists of the three counts, the figure and one status row,
    and of nothing else: no note, no recommendations; without analysis data
    nothing is rendered at all. *)
Lemma overview_without_questions_is_NaN :
  Analysis.renderOverview (Some {| Analysis.question_analyses := [] |}) 0
  = Some {| Analysis.totalQuestions := 0;
            Analysis.speechAnalyzed := 0;
            Analysis.videoAnalyzed := 0;
            Analysis.analysisComplete := JS.NaN;
            Analysis.rows := [] |}
  ∧ Analysis.renderOverview (Some Samples.nothing_yet) 0
    = Some {| Analysis.totalQuestions := 1;
              Analysis.speechAnalyzed := 0;
              Analysis.videoAnalyzed := 0;
              Analysis.analysisComplete := JS.Int 0;
              Analysis.rows :=
                [ {| Analysis.row_number := 1;
                     Analysis.row_text := "Tell me about yourself....";
                     Analysis.row_speech := Analysis.AlertCircle;
                     Analysis.row_video := Analysis.AlertCircle;
                     Analysis.row_selected := true |} ] |}
  ∧ Analysis.renderOverview None 0 = None.
Proof. repeat split; vm_compute; reflexivity. Qed.

(** C8.  No flag reaches the page.  The overview and the speech and video
    tabs are the same for an analysis and for its read part, in which every
    property that the render functions do not read (a [degraded] or
    [insufficient_signal] flag among them) is gone.  What the speech tab
    shows depends on the speech analyses alone, so replacing the video
    analyses, by fallback reports or by anything else, leaves every acoustic
    field on the page as it was. *)
Theorem flags_do_not_reach_the_page
    (d : Analysis.analysisData) (selectedQuestion : nat) :
  Analysis.renderVideoAnalysis (Some (Analysis.read_data d)) selectedQuestion
  = Analysis.renderVideoAnalysis (Some d) selectedQuestion
  ∧ Analysis.renderSpeechAnalysis (Some (Analysis.read_data d)) selectedQuestion
    = Analysis.renderSpeechAnalysis (Some d) selectedQuestion
  ∧ Analysis.renderOverview (Some (Analysis.read_data d)) selectedQuestion
    = Analysis.renderOverview (Some d) selectedQuestion
  ∧ ∀ d',
      Analysis.speech_analysis <$> Analysis.question_analyses d'
      = Analysis.speech_analysis <$> Analysis.question_analyses d ->
      Analysis.renderSpeechAnalysis (Some d') selectedQuestion
      = Analysis.renderSpeechAnalysis (Some d) selectedQuestion.
Proof.
  split; [| split; [| split]].
  - unfold Analysis.renderVideoAnalysis. rewrite currentQuestion_read.
    destruct (Analysis.currentQuestion (Some d) selectedQuestion) as [q |]; [| done].
    cbn. destruct (Analysis.video_analysis q) as [[r v a] |]; [| done].
    cbn. destruct v as [[f |] |]; cbn; try done; by destruct r.
  - unfold Analysis.renderSpeechAnalysis. rewrite currentQuestion_read.
    destruct (Analysis.currentQuestion (Some d) selectedQuestion) as [q |]; [| done].
    cbn. destruct (Analysis.speech_analysis q) as [[r v a] |]; [| done].
    cbn. destruct v as [[f |] |]; cbn; try done; by destruct r.
  - unfold Analysis.renderOverview, Analysis.read_data. cbn.
    destruct d as [qs]. cbn. f_equal.
    assert (Hs : ∀ l : list Analysis.question_analysis,
               length (filter (λ q, is_Some (Analysis.speech_analysis q))
                         (Analysis.read_question <$> l))
               = length (filter (λ q, is_Some (Analysis.speech_analysis q)) l)).
    { induction l as [| q l IH]; [done |].
      rewrite fmap_cons, !filter_cons.
      destruct (Analysis.speech_analysis q) eqn:E; cbn; rewrite E; cbn.
      - rewrite !decide_True by (by eexists). cbn. by rewrite IH.
      - rewrite !decide_False by (by intros [? ?]). exact IH. }
    assert (Hv : ∀ l : list Analysis.question_analysis,
               length (filter (λ q, is_Some (Analysis.video_analysis q))
                         (Analysis.read_question <$> l))
               = length (filter (λ q, is_Some (Analysis.video_analysis q)) l)).
    { induction l as [| q l IH]; [done |].
      rewrite fmap_cons, !filter_cons.
      destruct (Analysis.video_analysis q) eqn:E; cbn; rewrite E; cbn.
      - rewrite !decide_True by (by eexists). cbn. by rewrite IH.
      - rewrite !decide_False by (by intros [? ?]). exact IH. }
    rewrite Hs, Hv, length_fmap. f_equal.
    apply list_eq. intros i. rewrite !list_lookup_imap, list_lookup_fmap.
    destruct (qs !! i) as [q |]; [| done]. cbn.
    unfold Analysis.status_of. cbn.
    by destruct (Analysis.speech_analysis q), (Analysis.video_analysis q).
  - intros d' Hsame.
    unfold Analysis.renderSpeechAnalysis, Analysis.currentQuestion. cbn.
    assert (Hi : Analysis.question_analyses d' !! selectedQuestion
                 ≫= Analysis.speech_analysis
                 = Analysis.question_analyses d !! selectedQuestion
                   ≫= Analysis.speech_analysis).
    { apply (f_equal (λ l, l !! selectedQuestion)) in Hsame.
      rewrite !list_lookup_fmap in Hsame.
      destruct (Analysis.question_analyses d' !! selectedQuestion),
        (Analysis.question_analyses d !! selectedQuestion);
        cbn in *; congruence. }
    by rewrite Hi.
Qed.

(** C8, as stated, fails.  Three questions analysed with the facial backend
    unavailable carry [degraded = true] on the video analysis and in its
    report; the video tab of each is, item for item, the tab of the same
    analysis with [degraded = false]. *)
Lemma degraded_flag_is_absorbed :
  Analysis.attached (Samples.video_of true) !! "degraded" = Some (JS.Bool true)
  ∧ Analysis.attached (Samples.video_of false) !! "degraded" = Some (JS.Bool false)
  ∧ (λ i, Analysis.renderVideoAnalysis (Some (Samples.three_degraded true)) i)
    <$> [0; 1; 2]%nat
    = (λ i, Analysis.renderVideoAnalysis (Some (Samples.three_degraded false)) i)
      <$> [0; 1; 2]%nat
  ∧ Analysis.renderVideoAnalysis (Some (Samples.three_degraded true)) 0
    = Returned (Analysis.panel
        {| Analysis.video_heading := 1;
           Analysis.dominantEmotion := "neutral";
           Analysis.eyeContact := "N/A";
           Analysis.engagement := "N/A";
           Analysis.faceDetection := JS.Int 0;
           Analysis.video_plot := None;
           Analysis.video_tips := None |}).
Proof. repeat split; vm_compute; reflexivity. Qed.

(** ** Silence *)

Section SilenceFacts.

Import Extractor.

(** A buffer of zeros has no voiced frame, whatever the non-negative
    threshold. *)
Lemma frame_energy_zero (frame : list Z) :
  Forall (λ x, x = 0) frame -> frame_energy frame = 0.
Proof.
  induction 1 as [| x l -> _ IH]; [done |].
  change (frame_energy (0 :: l)) with (0 * 0 + frame_energy l).
  rewrite IH. lia.
Qed.

Lemma frames_from_zero (fuel : nat) (cfg : config) (samples : list Z) :
  Forall (λ x, x = 0) samples ->
  Forall (Forall (λ x, x = 0)) (frames_from fuel cfg samples).
Proof.
  revert samples.
  induction fuel as [| fuel IH]; intros samples Hz; cbn [frames_from]; [done |].
  destruct (length samples <? frame_length cfg)%nat; [done |].
  constructor.
  - by apply Forall_take.
  - apply IH. by apply Forall_drop.
Qed.

Lemma silence_is_unvoiced (cfg : config) (samples : list Z) :
  0 <= energy_threshold cfg ->
  Forall (λ x, x = 0) samples ->
  Forall (λ f, voiced cfg f = false) (frames cfg samples).
Proof.
  intros Ht Hz. unfold frames.
  eapply Forall_impl; [by apply frames_from_zero |].
  intros f Hf. unfold voiced. rewrite (frame_energy_zero f Hf).
  apply Z.ltb_ge. lia.
Qed.

Lemma no_voiced_frame_no_contour (cfg : config) (samples : list Z) :
  Forall (λ f, voiced cfg f = false) (frames cfg samples) ->
  contour cfg samples = [].
Proof.
  intros Hu. unfold contour.
  induction Hu as [| f l Hf _ IH]; [done |].
  rewrite filter_cons, decide_False by congruence. exact IH.
Qed.

End SilenceFacts.

Section DisplayFacts.

(** [x || 0] on the page is 0 or a truthy value: never [undefined], [null]
    or NaN. *)
Lemma or_zero_defined (v : JS.value) :
  JS.or v (JS.Num 0) = JS.Num 0
  ∨ (JS.or v (JS.Num 0) = v ∧ JS.truthy_value v = true).
Proof.
  unfold JS.or. destruct (JS.truthy_value v); [by right | by left].
Qed.

Lemma truthy_not_nan (v : JS.value) :
  JS.truthy_value v = true ->
  v ≠ JS.Undefined ∧ v ≠ JS.Null ∧ v ≠ JS.Num nan.
Proof.
  intros Hv. repeat split; intros ->; by vm_compute in Hv.
Qed.

Lemma voiced_or_null_positive (v : option float) (x : float) :
  Acoustic.voiced_or_null v = Some x -> (0 <? x)%float = true ∧ x ≠ nan.
Proof.
  unfold Acoustic.voiced_or_null. destruct v as [y |]; [| done].
  destruct (0 <? y)%float eqn:Hy; [| done].
  intros [= <-]. split; [done |]. intros ->. by vm_compute in Hy.
Qed.

End DisplayFacts.

(** C4.  The extractor, as the specification describes it: for a buffer of
    at least one second in which no frame is voiced, extraction succeeds,
    [insufficient_signal] is true, the contour is empty and mean, standard
    deviation, minimum and maximum of the pitch all equal the neutral value.
    The page, as the client shows it: the Mean Pitch card shows 0 or a
    truthy value, never [undefined], [null] or NaN, and 0 whenever the
    report's mean pitch is missing, null, 0 or NaN; the pitch chart exists as
    soon as the pitch values do, and each of its points is a positive number
    or [null], [null] for every value that is not above 0. *)
Theorem silence_gives_the_neutral_pitch
    (cfg : Extractor.config) (samples : list Z) :
  (Extractor.sample_rate cfg <= length samples)%nat ->
  Forall (λ f, Extractor.voiced cfg f = false) (Extractor.frames cfg samples) ->
  (∃ fs,
      Extractor.extract cfg samples = inr fs
      ∧ Extractor.insufficient_signal fs = true
      ∧ Extractor.pitch_contour fs = []
      ∧ Extractor.mean (Extractor.pitch_stats fs) = Extractor.neutral cfg
      ∧ Extractor.stdev (Extractor.pitch_stats fs) = Extractor.neutral cfg
      ∧ Extractor.minimum (Extractor.pitch_stats fs) = Extractor.neutral cfg
      ∧ Extractor.maximum (Extractor.pitch_stats fs) = Extractor.neutral cfg
      ∧ Extractor.voiced_frames (Extractor.pitch_stats fs) = 0%nat)
  ∧ (∀ data selectedQuestion p,
        Analysis.renderSpeechAnalysis data selectedQuestion
        = Returned (Analysis.panel p) ->
        Analysis.meanPitch p ≠ JS.Undefined
        ∧ Analysis.meanPitch p ≠ JS.Null
        ∧ Analysis.meanPitch p ≠ JS.Num nan)
  ∧ (∀ v, v ∈ [JS.Undefined; JS.Null; JS.Num 0; JS.Num (-0); JS.Num nan] ->
          JS.or v (JS.Num 0) = JS.Num 0)
  ∧ (∀ fs p values,
        pitch fs = Some p -> pitch_values p = Some values ->
        ∃ c,
          Acoustic.getChartData Acoustic.Pitch fs = Some c
          ∧ Acoustic.datasets c
            = [ {| Acoustic.ds_label := "Pitch (Hz)";
                   Acoustic.ds_data := Some (Acoustic.voiced_or_null <$> values) |} ]
          ∧ (∀ x, Some x ∈ Acoustic.voiced_or_null <$> values ->
                  (0 <? x)%float = true ∧ x ≠ nan)
          ∧ (Forall (λ v, Acoustic.voiced_or_null v = None) values ->
             Acoustic.voiced_or_null <$> values = replicate (length values) None)).
Proof.
  intros Hlen Hu. split; [| split; [| split]].
  - unfold Extractor.extract.
    rewrite (proj2 (Nat.ltb_ge _ _) Hlen).
    rewrite (no_voiced_frame_no_contour _ _ Hu). cbn.
    eexists. split; [reflexivity |]. by cbn.
  - intros data i p Hp.
    unfold Analysis.renderSpeechAnalysis in Hp.
    destruct (Analysis.currentQuestion data i ≫= Analysis.speech_analysis)
      as [a |]; [| done].
    destruct (Analysis.plot (Analysis.visualization a)); [| done].
    injection Hp as <-. cbn [Analysis.meanPitch].
    destruct (or_zero_defined (from_option Analysis.mean_pitch JS.Undefined
                                 (Analysis.report a))) as [-> | [-> Ht]].
    + repeat split; intros [=]. 
    + by apply truthy_not_nan.
  - intros v Hv.
    repeat (apply elem_of_cons in Hv as [-> | Hv]; [by vm_compute |]).
    by apply elem_of_nil in Hv.
  - intros fs p values Hp Hvals.
    exists {| Acoustic.labels := Acoustic.axis 10 1 (pitch_time p);
              Acoustic.datasets :=
                [ {| Acoustic.ds_label := "Pitch (Hz)";
                     Acoustic.ds_data := Some (Acoustic.voiced_or_null <$> values) |} ] |}.
    split; [| split; [reflexivity | split]].
    + unfold Acoustic.getChartData. rewrite Hp. cbn. by rewrite Hvals.
    + intros x Hx. apply list_elem_of_fmap in Hx as (v & Hv & _).
      symmetry in Hv. by apply voiced_or_null_positive in Hv.
    + intros Hall. clear Hvals.
      induction Hall as [| v l Hv _ IH]; [done |].
      rewrite fmap_cons, Hv, IH. reflexivity.
Qed.

(** One second of silence under the sample configuration. *)
Lemma silence_gives_the_neutral_pitch_witness :
  ∃ fs,
    Extractor.extract Samples.demo_config Samples.silence = inr fs
    ∧ Extractor.insufficient_signal fs = true
    ∧ Extractor.mean (Extractor.pitch_stats fs) = 0.
Proof.
  destruct (silence_gives_the_neutral_pitch Samples.demo_config Samples.silence)
    as [(fs & He & Hi & _ & Hm & _) _].
  - cbn. lia.
  - apply silence_is_unvoiced; [cbn; lia |].
    unfold Samples.silence. apply Forall_replicate. reflexivity.
  - exists fs. by rewrite He, Hi, Hm.
Defined.

(** * Further properties of the code *)

(** ** utils/auth.js *)

Section MoreAuthFacts.

Import Auth.

Lemma getUsers_insert (users : list user) (st : storage) :
  getUsers (<[USERS_KEY := CUsers users]> st) = UsersArray users.
Proof. unfold getUsers. by rewrite lookup_insert_eq. Qed.

(** Replacing the first user that has [u]'s id, or appending [u]. *)
Lemma saved_users (u : user) (st : storage) (users : list user) :
  getUsers st = UsersArray users ->
  ∃ users',
    saveUser u st = (<[USERS_KEY := CUsers users']> st, true)
    ∧ match list_find (λ v, id v = id u) users with
      | Some (i, _) => users' = <[i := u]> users
      | None => users' = users ++ [u]
      end.
Proof.
  intros Hus. unfold saveUser. rewrite Hus.
  destruct (list_find _ users) as [[i v] |]; by eexists.
Qed.

End MoreAuthFacts.

(** X1.  [saveUser] followed by a search by id gives the saved user back:
    on a store whose users parse as an array, [saveUser(u)] returns true,
    writes the users key only, and afterwards the first stored user with
    [u]'s id is [u] itself, while the users with another id are the same as
    before. *)
Theorem saveUser_then_find_by_id (u : user) (st : storage) (users : list user) :
  Auth.getUsers st = Auth.UsersArray users ->
  ∃ users' i,
    Auth.saveUser u st = (<[Auth.USERS_KEY := CUsers users']> st, true)
    ∧ Auth.getUsers (Auth.saveUser u st).1 = Auth.UsersArray users'
    ∧ list_find (λ v, id v = id u) users' = Some (i, u)
    ∧ filter (λ v, id v ≠ id u) users' = filter (λ v, id v ≠ id u) users
    ∧ (length users <= length users' <= S (length users))%nat.
Proof.
  intros Hus.
  destruct (saved_users u st users Hus) as (users' & Hsave & Hshape).
  destruct (list_find (λ v, id v = id u) users) as [[i v] |] eqn:Hfind.
  - subst users'. apply list_find_Some in Hfind as (Hi & Hv & Hbefore).
    exists (<[i := u]> users), i. rewrite Hsave. cbn [fst].
    split; [done |]. split; [apply getUsers_insert |]. split; [| split].
    + apply list_find_Some. split; [| split; [done |]].
      * apply list_lookup_insert_eq. by eapply lookup_lt_Some.
      * intros j w Hj Hlt. rewrite list_lookup_insert_ne in Hj by lia.
        by eapply Hbefore.
    + clear Hsave Hbefore Hus. revert i Hi.
      induction users as [| w l IH]; intros i Hi; [done |].
      destruct i as [| i].
      * injection Hi as ->.
        change (<[0%nat := u]> (v :: l)) with (u :: l).
        rewrite !filter_cons.
        by rewrite !decide_False by (intros Hne; by apply Hne).
      * change (<[S i := u]> (w :: l)) with (w :: <[i := u]> l).
        rewrite !filter_cons, (IH i Hi). done.
    + rewrite length_insert. lia.
  - subst users'. exists (users ++ [u]), (length users).
    rewrite Hsave. cbn [fst].
    split; [done |]. split; [apply getUsers_insert |]. split; [| split].
    + apply list_find_Some. split; [| split; [done |]].
      * by rewrite lookup_app_r, Nat.sub_diag by lia.
      * intros j w Hj Hlt. rewrite lookup_app_l in Hj by lia.
        eapply list_find_None in Hfind. rewrite Forall_lookup in Hfind.
        by eapply Hfind.
    + rewrite filter_app, filter_cons, filter_nil.
      rewrite decide_False by (intros Hne; by apply Hne).
      by rewrite app_nil_r.
    + rewrite length_app. cbn. lia.
Qed.

(** The default administrator, saved on an empty store. *)
Lemma saveUser_then_find_by_id_witness :
  ∃ users' i,
    Auth.getUsers (Auth.saveUser (Auth.defaultUser 0) ∅).1 = Auth.UsersArray users'
    ∧ list_find (λ v, id v = "1") users' = Some (i, Auth.defaultUser 0).
Proof.
  assert (Hempty : Auth.getUsers ∅ = Auth.UsersArray [])
    by (vm_compute; reflexivity).
  destruct (saveUser_then_find_by_id (Auth.defaultUser 0) ∅ [] Hempty)
    as (users' & i & _ & Hget & Hfind & _).
  by exists users', i.
Defined.

(** X2.  [saveUser] keeps the ids apart: if no two stored users share an id,
    no two do afterwards. *)
Theorem saveUser_keeps_ids_distinct (u : user) (st : storage) (users : list user) :
  Auth.getUsers st = Auth.UsersArray users ->
  NoDup (id <$> users) ->
  ∃ users',
    Auth.getUsers (Auth.saveUser u st).1 = Auth.UsersArray users'
    ∧ NoDup (id <$> users').
Proof.
  intros Hus Hnd.
  destruct (saved_users u st users Hus) as (users' & Hsave & Hshape).
  exists users'. rewrite Hsave. cbn [fst]. split; [apply getUsers_insert |].
  destruct (list_find (λ v, id v = id u) users) as [[i v] |] eqn:Hfind; subst users'.
  - apply list_find_Some in Hfind as (Hi & Hv & _).
    rewrite list_fmap_insert. rewrite list_insert_id; [done |].
    by rewrite list_lookup_fmap, Hi, <- Hv.
  - rewrite fmap_app. apply NoDup_app. split; [done |]. split.
    + intros x Hx Hx'. apply list_elem_of_singleton in Hx'. subst x.
      apply list_elem_of_fmap in Hx as (w & Hw & Hin).
      eapply list_find_None in Hfind. rewrite Forall_forall in Hfind.
      by eapply Hfind.
    + apply NoDup_singleton.
Qed.

(** Three stored users; Ada is saved again with another password: she
    keeps her place between the other two and the three ids stay apart. *)
Lemma saveUser_keeps_ids_distinct_witness :
  let ada' :=
    {| id := id Samples.ada; username := "ada"; password := "analytical";
       email := "ada@example.com"; fullName := "Ada Lovelace"; role := "user";
       createdAt := 1700000000500; lastLogin := None |} in
  NoDup (id <$> [Auth.defaultUser 1700000000000; Samples.ada; Samples.bob])
  ∧ ∃ users',
      Auth.getUsers (Auth.saveUser ada' Samples.three_users).1
      = Auth.UsersArray users'
      ∧ users' = [Auth.defaultUser 1700000000000; ada'; Samples.bob]
      ∧ NoDup (id <$> users').
Proof.
  intros ada'.
  assert (Hnd : NoDup (id <$> [Auth.defaultUser 1700000000000;
                               Samples.ada; Samples.bob]))
    by (refine (bool_decide_unpack _ _); vm_compute; exact I).
  split; [exact Hnd |].
  assert (Hus : Auth.getUsers Samples.three_users
                = Auth.UsersArray [Auth.defaultUser 1700000000000;
                                   Samples.ada; Samples.bob])
    by (vm_compute; reflexivity).
  destruct (saveUser_keeps_ids_distinct ada' _ _ Hus Hnd) as (users' & Hget & Hnd').
  exists users'. split; [exact Hget |]. split; [| exact Hnd'].
  assert (Hconcrete : Auth.getUsers (Auth.saveUser ada' Samples.three_users).1
                      = Auth.UsersArray [Auth.defaultUser 1700000000000;
                                         ada'; Samples.bob])
    by (vm_compute; reflexivity).
  rewrite Hconcrete in Hget. by injection Hget as <-.
Defined.

Section RegisterFacts.

Import Auth.

Lemma initializeDefaultUser_nonempty (now : Z) (st : storage) (u : user) (l : list user) :
  getUsers st = UsersArray (u :: l) -> initializeDefaultUser now st = st.
Proof. intros H. unfold initializeDefaultUser. by rewrite H. Qed.

(** A search that fails on [users] and succeeds on [u] finds [u] in what
    [saveUser u] stores. *)
Lemma find_saved (P : user -> Prop) `{∀ v, Decision (P v)}
    (u : user) (users users' : list user) :
  list_find P users = None -> P u ->
  match list_find (λ v, id v = id u) users with
  | Some (i, _) => users' = <[i := u]> users
  | None => users' = users ++ [u]
  end ->
  ∃ i, list_find P users' = Some (i, u).
Proof.
  intros Hnone Hu Hshape.
  eapply list_find_None in Hnone. rewrite Forall_lookup in Hnone.
  destruct (list_find (λ v, id v = id u) users) as [[i v] |] eqn:Hfind; subst users'.
  - apply list_find_Some in Hfind as (Hi & _ & _).
    exists i. apply list_find_Some. split; [| split; [done |]].
    + apply list_lookup_insert_eq. by eapply lookup_lt_Some.
    + intros j w Hj Hlt. rewrite list_lookup_insert_ne in Hj by lia.
      by eapply Hnone.
  - exists (length users). apply list_find_Some. split; [| split; [done |]].
    + by rewrite lookup_app_r, Nat.sub_diag by lia.
    + intros j w Hj Hlt. rewrite lookup_app_l in Hj by lia. by eapply Hnone.
Qed.

End RegisterFacts.

(** X3.  A registration that succeeds can be used at once: [loginUser] with
    the registered username and password then succeeds and returns the
    registered user's id (the decimal digits of [Date.now()]), username,
    email and full name, with the role ['user']. *)
Theorem register_then_login
    (data : Auth.userData) (now_id now_created : Z) (clk : Auth.clock)
    (st st' : storage) (u : user) :
  Auth.registerUser data now_id now_created st = (st', Auth.registered u) ->
  ∃ st'',
    Auth.loginUser (Auth.new_username data) (Auth.new_password data) clk st'
    = (st'', Auth.success
               {| su_id := pretty now_id;
                  su_username := Auth.new_username data;
                  su_email := Auth.new_email data;
                  su_fullName := Auth.new_fullName data;
                  su_role := "user" |}).
Proof.
  unfold Auth.registerUser. intros Hreg.
  destruct (Auth.getUsers st) as [users |] eqn:Hus; [| done].
  destruct (list_find (λ v, username v = Auth.new_username data) users)
    eqn:Hname; [done |].
  destruct (list_find (λ v, email v = Auth.new_email data) users)
    eqn:Hmail; [done |].
  injection Hreg as Hst Hu.
  destruct (saved_users u st users Hus) as (users' & Hsave & Hshape).
  rewrite Hu, Hsave in Hst. cbn [fst] in Hst. subst st'.
  assert (Hcred : list_find
                    (λ v, username v = Auth.new_username data
                          ∧ password v = Auth.new_password data) users = None).
  { apply list_find_None. eapply list_find_None in Hname.
    eapply Forall_impl; [exact Hname |]. intros v Hv [Hv' _]. by apply Hv. }
  destruct (find_saved _ u users users' Hcred) as [i Hfound];
    [by subst u | exact Hshape |].
  assert (Hne : ∃ w l, users' = w :: l).
  { apply list_find_Some in Hfound as (Hi & _).
    destruct users' as [| w l]; [done | by eexists _, _]. }
  destruct Hne as (w & l & Hwl).
  unfold Auth.loginUser.
  rewrite (initializeDefaultUser_nonempty _ _ w l)
    by (rewrite getUsers_insert; by rewrite Hwl).
  rewrite getUsers_insert, Hfound. subst u. cbn. by eexists.
Qed.

(** Ada registers on an empty store and logs in. *)
Lemma register_then_login_witness :
  let data := {| Auth.new_username := "ada"; Auth.new_password := "lovelace";
                 Auth.new_email := "ada@example.com";
                 Auth.new_fullName := "Ada Lovelace" |} in
  (Auth.loginUser "ada" "lovelace" Samples.demo_clock
     (Auth.registerUser data 1700000000000 1700000000000 ∅).1).2
  = Auth.success {| su_id := "1700000000000"; su_username := "ada";
                    su_email := "ada@example.com";
                    su_fullName := "Ada Lovelace"; su_role := "user" |}.
Proof.
  intros data.
  assert (Hreg : Auth.registerUser data 1700000000000 1700000000000 ∅
                 = ((Auth.registerUser data 1700000000000 1700000000000 ∅).1,
                    Auth.registered
                      {| id := "1700000000000"; username := "ada";
                         password := "lovelace"; email := "ada@example.com";
                         fullName := "Ada Lovelace"; role := "user";
                         createdAt := 1700000000000; lastLogin := None |}))
    by (vm_compute; reflexivity).
  destruct (register_then_login _ _ _ Samples.demo_clock _ _ _ Hreg) as [st'' Hl].
  cbn [Auth.new_username Auth.new_password data] in Hl. rewrite Hl.
  vm_compute. reflexivity.
Defined.

(** X4.  [registerUser] refuses a username or an email that a stored user
    already has, and then leaves the store as it is. *)
Theorem register_rejects_duplicates
    (data : Auth.userData) (now_id now_created : Z) (st : storage)
    (users : list user) (u : user) :
  Auth.getUsers st = Auth.UsersArray users ->
  u ∈ users ->
  username u = Auth.new_username data ∨ email u = Auth.new_email data ->
  Auth.registerUser data now_id now_created st
  = (st, Auth.not_registered
           (if decide (Exists (λ v, username v = Auth.new_username data) users)
            then "Username already exists" else "Email already exists")).
Proof.
  intros Hus Hin Hdup. unfold Auth.registerUser. rewrite Hus.
  destruct (list_find (λ v, username v = Auth.new_username data) users)
    as [[i v] |] eqn:Hname.
  - apply list_find_Some in Hname as (Hi & Hv & _).
    rewrite decide_True; [done |].
    apply Exists_exists. exists v. split; [by eapply list_elem_of_lookup_2 | done].
  - eapply list_find_None in Hname.
    rewrite decide_False by (by apply Forall_Exists_neg).
    destruct Hdup as [Hn | He].
    + rewrite Forall_forall in Hname. by destruct (Hname u Hin).
    + destruct (list_find (λ v, email v = Auth.new_email data) users)
        as [[i v] |] eqn:Hmail; [done |].
      eapply list_find_None in Hmail. rewrite Forall_forall in Hmail.
      by destruct (Hmail u Hin).
Qed.

Lemma register_rejects_duplicates_witness :
  Auth.registerUser
    {| Auth.new_username := "admin"; Auth.new_password := "x";
       Auth.new_email := "root@example.com"; Auth.new_fullName := "Root" |}
    5 5 (Auth.initializeDefaultUser 0 ∅)
  = (Auth.initializeDefaultUser 0 ∅,
     Auth.not_registered "Username already exists").
Proof.
  rewrite (register_rejects_duplicates _ 5 5 _ [Auth.defaultUser 0] (Auth.defaultUser 0)).
  - by rewrite decide_True by (constructor; reflexivity).
  - vm_compute. reflexivity.
  - by apply list_elem_of_singleton.
  - by left.
Defined.

Section SessionFacts.

Import Auth.

Lemma initializeDefaultUser_frame (now : Z) (st : storage) (k : string) :
  k ≠ USERS_KEY -> initializeDefaultUser now st !! k = st !! k.
Proof.
  intros Hk. unfold initializeDefaultUser, saveUser.
  destruct (getUsers st) as [[| u l] |]; cbn; try done.
  by rewrite lookup_insert_ne.
Qed.

(** [getCurrentUser] looks at the auth key only. *)
Lemma getCurrentUser_reads_auth (now : Z) (st st' : storage) :
  st' !! AUTH_KEY = st !! AUTH_KEY ->
  (getCurrentUser now st').2 = (getCurrentUser now st).2.
Proof.
  intros H. unfold getCurrentUser. rewrite H.
  destruct (st !! AUTH_KEY) as [[| a | | | t] |]; try done.
  - by destruct (expiresAt a <? now).
  - by destruct (String.eqb t "").
Qed.

End SessionFacts.

(** X5.  A login that fails touches no session: the auth key holds what it
    held, so whoever was logged in still is, at every instant.  (It may
    still have created the default administrator.) *)
Theorem failed_login_keeps_the_session
    (name pass : string) (clk : Auth.clock) (st st' : storage) (error : string) :
  Auth.loginUser name pass clk st = (st', Auth.failure error) ->
  st' !! Auth.AUTH_KEY = st !! Auth.AUTH_KEY
  ∧ (∀ now, (Auth.getCurrentUser now st').2 = (Auth.getCurrentUser now st).2)
  ∧ ∀ k, k ≠ Auth.USERS_KEY -> st' !! k = st !! k.
Proof.
  unfold Auth.loginUser. intros H.
  assert (Hst : st' = Auth.initializeDefaultUser (Auth.at_createdAt clk) st).
  { destruct (Auth.getUsers _) as [users |]; [| by injection H].
    destruct (list_find _ users) as [[i u] |]; [done | by injection H]. }
  subst st'.
  assert (Hk : ∀ k, k ≠ Auth.USERS_KEY ->
             Auth.initializeDefaultUser (Auth.at_createdAt clk) st !! k = st !! k)
    by (intros k Hk; by apply initializeDefaultUser_frame).
  split; [by apply Hk |]. split; [| exact Hk].
  intros now. apply getCurrentUser_reads_auth. by apply Hk.
Qed.

(** A wrong password for the administrator, while the administrator is
    logged in. *)
Lemma failed_login_keeps_the_session_witness :
  let st := (Auth.loginUser "admin" "admin123" Samples.demo_clock ∅).1 in
  (Auth.getCurrentUser 1700000000003
     (Auth.loginUser "admin" "guess" Samples.demo_clock st).1).2
  = Auth.current Samples.admin_session.
Proof.
  intros st.
  assert (Hfail : Auth.loginUser "admin" "guess" Samples.demo_clock st
                  = ((Auth.loginUser "admin" "guess" Samples.demo_clock st).1,
                     Auth.failure "Invalid username or password"))
    by (vm_compute; reflexivity).
  destruct (failed_login_keeps_the_session _ _ _ _ _ _ Hfail) as (_ & Hsame & _).
  rewrite Hsame. vm_compute. reflexivity.
Defined.

(** X6.  Sessions only run out.  If [getCurrentUser] returns [null] at some
    instant, it returns [null] at every later instant, on the store it
    leaves as on the original one; and if it returns a user at some instant,
    it returns the same user, and leaves the store alone, at every earlier
    instant. *)
Theorem sessions_only_run_out (st : storage) (t t' : Z) :
  t <= t' ->
  ((Auth.getCurrentUser t st).2 = Auth.null ->
   (Auth.getCurrentUser t' st).2 = Auth.null
   ∧ (Auth.getCurrentUser t' (Auth.getCurrentUser t st).1).2 = Auth.null)
  ∧ (∀ u, (Auth.getCurrentUser t' st).2 = Auth.current u ->
          Auth.getCurrentUser t st = (st, Auth.current u)).
Proof.
  intros Hle. unfold Auth.getCurrentUser, Auth.logoutUser.
  destruct (st !! Auth.AUTH_KEY) as [[| a | | | s] |] eqn:Hauth.
  - split; [intros H; discriminate H | intros u H; discriminate H].
  - destruct (Z.ltb_spec (expiresAt a) t) as [Hlt | Hge]; cbn.
    + rewrite (proj2 (Z.ltb_lt (expiresAt a) t')) by lia. cbn.
      rewrite lookup_delete_eq. split; [done | intros u H; discriminate H].
    + split; [intros H; discriminate H |]. intros u.
      destruct (expiresAt a <? t'); cbn; [intros H; discriminate H | congruence].
  - split; [intros H; discriminate H | intros u H; discriminate H].
  - split; [intros H; discriminate H | intros u H; discriminate H].
  - destruct (String.eqb s "") eqn:Hs; cbn.
    + rewrite Hauth, Hs. split; [done | intros u H; discriminate H].
    + rewrite lookup_delete_eq. split; [done | intros u H; discriminate H].
  - cbn. rewrite Hauth. split; [done | intros u H; discriminate H].
Qed.

(** The administrator's session one millisecond after it ran out, and a day
    after that. *)
Lemma sessions_only_run_out_witness :
  let st := (Auth.loginUser "admin" "admin123" Samples.demo_clock ∅).1 in
  (Auth.getCurrentUser (1700000000003 + 2 * 86400000) st).2 = Auth.null.
Proof.
  intros st.
  destruct (sessions_only_run_out st (1700000000003 + 86400000)
              (1700000000003 + 2 * 86400000)) as [Hnull _]; [lia |].
  apply Hnull. vm_compute. reflexivity.
Defined.

(** X7.  [loginUser] stamps the user who logs in and nobody else.  When no
    two stored users share an id, a successful login rewrites the stored
    array at the position of the first user with the given name and
    password, changing that user's [lastLogin] only; every other position
    holds what it held. *)
Theorem login_stamps_one_user
    (name pass : string) (clk : Auth.clock) (st st' : storage)
    (u0 : user) (l : list user) (su : session_user) :
  Auth.getUsers st = Auth.UsersArray (u0 :: l) ->
  NoDup (id <$> u0 :: l) ->
  Auth.loginUser name pass clk st = (st', Auth.success su) ->
  ∃ i u,
    list_find (λ v, username v = name ∧ password v = pass) (u0 :: l) = Some (i, u)
    ∧ Auth.getUsers st'
      = Auth.UsersArray
          (<[i := {| id := id u; username := username u; password := password u;
                     email := email u; fullName := fullName u; role := role u;
                     createdAt := createdAt u;
                     lastLogin := Some (Auth.at_lastLogin clk) |}]> (u0 :: l)).
Proof.
  intros Hus Hnd. unfold Auth.loginUser.
  rewrite (initializeDefaultUser_nonempty _ _ _ _ Hus), Hus.
  destruct (list_find _ (u0 :: l)) as [[i u] |] eqn:Hfind; [| done].
  intros H. injection H as <- _. exists i, u. split; [done |].
  set (u' := Build_user _ _ _ _ _ _ _ _).
  destruct (saved_users u' st _ Hus) as (users' & Hsave & Hshape).
  rewrite Hsave. cbn [fst]. unfold Auth.getUsers.
  rewrite lookup_insert_ne by done. rewrite lookup_insert_eq. f_equal.
  apply list_find_Some in Hfind as (Hi & _ & _).
  assert (Hj : list_find (λ v, id v = id u') (u0 :: l) = Some (i, u)).
  { apply list_find_Some. split; [done |]. split; [done |].
    intros j w Hj Hlt Hid.
    assert (i = j); [| lia].
    eapply NoDup_lookup; [exact Hnd | |];
      rewrite list_lookup_fmap; [rewrite Hi | rewrite Hj]; cbn; [done |].
    by rewrite Hid. }
  by rewrite Hj in Hshape.
Qed.

(** Three stored users; Ada, the second, logs in: the second position, and
    no other, is rewritten, with the clock reading as her [lastLogin]. *)
Lemma login_stamps_one_user_witness :
  ∃ st' i u,
    Auth.loginUser "ada" "lovelace" Samples.demo_clock Samples.three_users
    = (st', Auth.success
              {| su_id := "1700000000500"; su_username := "ada";
                 su_email := "ada@example.com"; su_fullName := "Ada Lovelace";
                 su_role := "user" |})
    ∧ list_find (λ v, username v = "ada" ∧ password v = "lovelace")
        [Auth.defaultUser 1700000000000; Samples.ada; Samples.bob] = Some (i, u)
    ∧ i = 1%nat
    ∧ u = Samples.ada
    ∧ Auth.getUsers st'
      = Auth.UsersArray
          [ Auth.defaultUser 1700000000000;
            {| id := "1700000000500"; username := "ada"; password := "lovelace";
               email := "ada@example.com"; fullName := "Ada Lovelace";
               role := "user"; createdAt := 1700000000500;
               lastLogin := Some 1700000000001 |};
            Samples.bob ].
Proof.
  assert (Hus : Auth.getUsers Samples.three_users
                = Auth.UsersArray [Auth.defaultUser 1700000000000;
                                   Samples.ada; Samples.bob])
    by (vm_compute; reflexivity).
  assert (Hnd : NoDup (id <$> [Auth.defaultUser 1700000000000;
                               Samples.ada; Samples.bob]))
    by (refine (bool_decide_unpack _ _); vm_compute; exact I).
  pose (st' := (Auth.loginUser "ada" "lovelace" Samples.demo_clock
                  Samples.three_users).1).
  assert (Hlog : Auth.loginUser "ada" "lovelace" Samples.demo_clock
                   Samples.three_users
                 = (st', Auth.success
                           {| su_id := "1700000000500"; su_username := "ada";
                              su_email := "ada@example.com";
                              su_fullName := "Ada Lovelace"; su_role := "user" |}))
    by (vm_compute; reflexivity).
  destruct (login_stamps_one_user _ _ _ _ _ _ _ _ Hus Hnd Hlog)
    as (i & u & Hfind & Hget).
  assert (Hiu : list_find (λ v, username v = "ada" ∧ password v = "lovelace")
                  [Auth.defaultUser 1700000000000; Samples.ada; Samples.bob]
                = Some (1%nat, Samples.ada))
    by (vm_compute; reflexivity).
  rewrite Hiu in Hfind. injection Hfind as <- <-.
  exists st', 1%nat, Samples.ada.
  split; [done |]. split; [exact Hiu |]. split; [done |]. split; [done |].
  exact Hget.
Defined.

(** ** components/InterviewInterface.js *)

Section InterviewMoves.

Import Interview.

Lemma moves_handle e s s' :
  pages_ok s -> handle e s = Some s' ->
  step s' = step s ∨ next_page (step s) (step s') = true.
Proof.
  unfold pages_ok. intros (Hg & Ht & Hf) H.
  destruct e; run_handler H; use_facts; subst; cbn; auto.
Qed.

Lemma kept_handle e s s' :
  handle e s = Some s' ->
  (currentQuestionIndex s <= currentQuestionIndex s')%nat
  ∧ dom (recordedVideos s) ⊆ dom (recordedVideos s')
  ∧ dom (acousticData s) ⊆ dom (acousticData s')
  ∧ log s `prefix_of` log s'.
Proof.
  intros H.
  destruct e; run_handler H;
    (split; [lia |]);
    (split; [try done; rewrite ?dom_insert; set_solver |]);
    (split; [try done; rewrite ?dom_insert; set_solver |]);
    try done; try (by apply prefix_app_r);
    try (by do 2 (etrans; [| apply prefix_app_r; reflexivity])).
Qed.

End InterviewMoves.

(** X8.  The pages follow one cycle.  Whatever has happened since the
    component was mounted, an event either leaves the page as it is or
    moves it one step along form, interview, processing, results, form. *)
Theorem pages_follow_one_cycle
    (user_name user_email : string) (st : storage)
    (es : list Interview.event) (e : Interview.event) (s s' : Interview.state) :
  Interview.run es (Interview.initial user_name user_email st) = Some s ->
  Interview.handle e s = Some s' ->
  Interview.step s' = Interview.step s
  ∨ Interview.next_page (Interview.step s) (Interview.step s') = true.
Proof.
  intros Hrun H. eapply moves_handle; [| exact H].
  eapply pages_ok_run; [apply pages_ok_initial | exact Hrun].
Qed.

(** After the interview has been finished, the reply to the finalize
    request leaves the processing page on show. *)
Lemma pages_follow_one_cycle_witness :
  ∃ s s',
    Interview.run Samples.one_question_answered Samples.mounted = Some s
    ∧ Interview.handle
        (Interview.finalize_settled 1700000100000 (Interview.Json 200 "done")) s
      = Some s'
    ∧ (Interview.step s' = Interview.step s
       ∨ Interview.next_page (Interview.step s) (Interview.step s') = true).
Proof.
  destruct (Interview.run Samples.one_question_answered Samples.mounted)
    as [s |] eqn:Hrun; [| vm_compute in Hrun; discriminate Hrun].
  destruct (Interview.handle
              (Interview.finalize_settled 1700000100000 (Interview.Json 200 "done")) s)
    as [s' |] eqn:H.
  - exists s, s'. split; [done |]. split; [done |].
    exact (pages_follow_one_cycle _ _ _ _ _ _ _ Hrun H).
  - vm_compute in Hrun. injection Hrun as <-. vm_compute in H. discriminate H.
Defined.

(** X9.  The component never takes anything back.  Over any sequence of
    events, from any state, the question index does not go down, no stored
    recording and no stored acoustic data is dropped, and the effects so far
    stay as they were (new ones are added at the end).  In particular
    "Start New Interview" resets none of them. *)
Theorem nothing_is_taken_back
    (es : list Interview.event) (s s' : Interview.state) :
  Interview.run es s = Some s' ->
  (Interview.currentQuestionIndex s <= Interview.currentQuestionIndex s')%nat
  ∧ dom (Interview.recordedVideos s) ⊆ dom (Interview.recordedVideos s')
  ∧ dom (Interview.acousticData s) ⊆ dom (Interview.acousticData s')
  ∧ Interview.log s `prefix_of` Interview.log s'.
Proof.
  revert s. induction es as [| e es IH]; intros s H; cbn in H.
  - by simplify_eq.
  - destruct (Interview.handle e s) as [s1 |] eqn:He; [| done].
    destruct (kept_handle _ _ _ He) as (? & ? & ? & ?).
    destruct (IH _ H) as (? & ? & ? & ?).
    split; [lia |]. split; [by etrans |]. split; [by etrans |].
    by etrans.
Qed.

(** From the results page of a finished interview to the questions of a
    second one. *)
Lemma nothing_is_taken_back_witness :
  ∃ s s',
    Interview.run Samples.one_question_finished Samples.mounted = Some s
    ∧ Interview.run
        [ Interview.click_start_new_interview; Interview.click_generate;
          Interview.generate_settled
            (Interview.Json 200 (["Why this position?"], Some "s2")) ] s
      = Some s'
    ∧ dom (Interview.recordedVideos s) ⊆ dom (Interview.recordedVideos s').
Proof.
  destruct (Interview.run Samples.one_question_finished Samples.mounted)
    as [s |] eqn:Hrun; [| vm_compute in Hrun; discriminate Hrun].
  destruct (Interview.run
              [ Interview.click_start_new_interview; Interview.click_generate;
                Interview.generate_settled
                  (Interview.Json 200 (["Why this position?"], Some "s2")) ] s)
    as [s' |] eqn:H.
  - exists s, s'. split; [done |]. split; [done |].
    exact (proj1 (proj2 (nothing_is_taken_back _ _ _ H))).
  - vm_compute in Hrun. injection Hrun as <-. vm_compute in H. discriminate H.
Defined.


Section FirstInterview.

Import Interview Session.

Lemma answered_snoc sid l e :
  answered sid (l ++ [e])
  = answered sid l
    || match e with
       | POST_upload_video sid' _ _ => bool_decide (sid' = sid)
       | _ => false
       end.
Proof. unfold answered. rewrite existsb_app. cbn. by rewrite orb_false_r. Qed.

Lemma answered_prefix sid l l' :
  l `prefix_of` l' -> answered sid l = true -> answered sid l' = true.
Proof.
  intros [k ->] H. unfold answered in *. rewrite existsb_app, H. done.
Qed.

Ltac use_props :=
  repeat match goal with
         | H : is_Some None |- _ => destruct H as [? H]; discriminate H
         | H : ?P -> _, H' : ?P |- _ =>
             match type of P with Prop => specialize (H H') end
         | H : ?a = ?a -> _ |- _ => specialize (H eq_refl)
         | H : is_Some (Some ?x) -> _ |- _ => specialize (H (mk_is_Some _ _ eq_refl))
         | H : _ ∧ _ |- _ => destruct H
         | H : Some _ = Some _ |- _ => injection H as H
         | H : ?x = _ |- _ => is_var x; subst x
         | H : _ = ?x |- _ => is_var x; subst x
         end.

Lemma first_ok_handle e s s' :
  pages_ok s -> first_ok s ->
  e ≠ click_start_new_interview ->
  handle e s = Some s' ->
  first_ok s'.
Proof.
  unfold pages_ok, first_ok.
  intros (Hg & Ht & Hf) (Hform & Hrec & Hans) Hne H.
  pose proof answered_snoc as Hsnoc.
  set (ans := answered) in *; clearbody ans.
  destruct e; try done; run_handler H.
  all: repeat split; intros; use_props; rewrite ?Hsnoc; cbn [orb onstop_sessionId]; rewrite ?orb_false_r; try congruence; eauto.
  rewrite (Hrec _ eq_refl), bool_decide_true by done. apply orb_true_r.
Qed.

Lemma first_moves e s s' :
  pages_ok s -> first_ok s ->
  e ≠ click_start_new_interview ->
  handle e s = Some s' ->
  (step s' = step s ∧ sessionId s' = sessionId s)
  ∨ (step s = form ∧ step s' = interview ∧ log s' = log s)
  ∨ (step s = interview ∧ step s' = processing
     ∧ answered (sessionId s) (log s) = true)
  ∨ (step s = processing ∧ step s' = results).
Proof.
  unfold pages_ok, first_ok.
  intros (Hg & Ht & Hf) (Hform & Hrec & Hans) Hne H.
  set (ans := answered) in *; clearbody ans.
  destruct e; try done; run_handler H; use_props;
    first [ by left
          | by right; left
          | by right; right; right
          | right; right; left; repeat split; by eauto ].
Qed.

Lemma first_respects e s s' :
  pages_ok s -> first_ok s ->
  e ≠ click_start_new_interview ->
  handle e s = Some s' ->
  respects (status_of s) (status_of s') = true.
Proof.
  intros Hp Hfirst Hne H.
  pose proof (kept_handle _ _ _ H) as (_ & _ & _ & Hlog).
  destruct (first_moves _ _ _ Hp Hfirst Hne H)
    as [[Hst Hsid] | [(Hs & Hs' & Hl) | [(Hs & Hs' & Ha) | [Hs Hs']]]];
    unfold status_of.
  - rewrite Hst, Hsid. destruct (step s); try done.
    destruct (answered (sessionId s) (log s)) eqn:Ha.
    + by rewrite (answered_prefix _ _ _ Hlog Ha).
    + by destruct (answered (sessionId s) (log s')).
  - rewrite Hs, Hs', Hl.
    destruct Hfirst as (Hform & _). destruct (Hform Hs) as (_ & _ & Hno).
    by rewrite Hno.
  - by rewrite Hs, Hs', Ha.
  - by rewrite Hs, Hs'.
Qed.

Lemma first_ok_initial n e st : first_ok (initial n e st).
Proof.
  unfold first_ok; cbn. repeat split; try done.
  intros i [b Hb]. by rewrite lookup_empty in Hb.
Qed.

Lemma first_ok_run es s s' :
  pages_ok s -> first_ok s ->
  Forall (λ e, e ≠ click_start_new_interview) es ->
  run es s = Some s' ->
  pages_ok s' ∧ first_ok s'.
Proof.
  revert s. induction es as [| e es IH]; intros s Hp Hfirst Hes H; cbn in H.
  - by simplify_eq.
  - destruct (handle e s) as [s1 |] eqn:He; [| done].
    apply Forall_cons in Hes as [Hne Hes].
    eapply (IH s1); try done.
    + by eapply pages_ok_handle.
    + by eapply first_ok_handle.
Qed.

End FirstInterview.

(** X10.  Until "Start New Interview" is pressed, the session goes through
    the specification's states in order.  After any sequence of events
    without that button, every event on offer leaves the session where it
    is or moves it along Created, InProgress, Finalizing, Complete; and
    when the finalize request goes out, an answer has been sent for that
    very session. *)
Theorem first_interview_keeps_the_order
    (user_name user_email : string) (st : storage)
    (es : list Interview.event) (e : Interview.event) (s s' : Interview.state) :
  Forall (λ e, e ≠ Interview.click_start_new_interview) es ->
  Interview.run es (Interview.initial user_name user_email st) = Some s ->
  Interview.handle e s = Some s' ->
  Session.respects (Session.status_of s) (Session.status_of s') = true
  ∧ (Session.status_of s' = Some Session.Finalizing ->
     Session.status_of s ≠ Some Session.Finalizing ->
     Session.answered (Interview.sessionId s) (Interview.log s) = true).
Proof.
  intros Hes Hrun H.
  destruct (first_ok_run es _ s (pages_ok_initial _ _ _) (first_ok_initial _ _ _)
              Hes Hrun) as [Hp Hfirst].
  assert (He : e = Interview.click_start_new_interview
               ∨ e ≠ Interview.click_start_new_interview)
    by (destruct e; first [by left | by right]).
  destruct He as [-> | Hne].
  - unfold Interview.handle, Interview.when in H.
    case_bool_decide as Hres; [| done]. injection H as <-.
    unfold Session.status_of. destruct s; cbn in *. subst. by split.
  - split; [by eapply first_respects |].
    unfold Session.status_of. intros Hnew Hold.
    destruct (first_moves _ _ _ Hp Hfirst Hne H)
      as [[Hst Hsid] | [(Hs & Hs' & Hl) | [(Hs & Hs' & Ha) | [Hs Hs']]]].
    + rewrite Hst in Hnew. destruct (Interview.step s); cbn in *; try done.
      destruct (Session.answered (Interview.sessionId s') _); discriminate Hnew.
    + rewrite Hs' in Hnew.
      destruct (Session.answered (Interview.sessionId s') _); discriminate Hnew.
    + done.
    + rewrite Hs' in Hnew. discriminate Hnew.
Qed.

(** The only question answered and uploaded; then "Finish Interview". *)
Lemma first_interview_keeps_the_order_witness :
  ∃ s s',
    Interview.run
      (Samples.open_session "s1" ["Tell me about yourself."]
       ++ Samples.record_answer Samples.long_chunk
       ++ [Interview.upload_settled (Some "s1") 0 (Interview.Json 200 "saved")])
      Samples.mounted = Some s
    ∧ Interview.handle Interview.click_next s = Some s'
    ∧ Session.status_of s = Some Session.InProgress
    ∧ Session.status_of s' = Some Session.Finalizing
    ∧ Session.respects (Session.status_of s) (Session.status_of s') = true.
Proof.
  destruct (Interview.run
              (Samples.open_session "s1" ["Tell me about yourself."]
               ++ Samples.record_answer Samples.long_chunk
               ++ [Interview.upload_settled (Some "s1") 0 (Interview.Json 200 "saved")])
              Samples.mounted)
    as [s |] eqn:Hrun; [| vm_compute in Hrun; discriminate Hrun].
  destruct (Interview.handle Interview.click_next s) as [s' |] eqn:H.
  - exists s, s'. split; [done |]. split; [done |].
    assert (Hes : Forall (λ e, e ≠ Interview.click_start_new_interview)
                    (Samples.open_session "s1" ["Tell me about yourself."]
                     ++ Samples.record_answer Samples.long_chunk
                     ++ [Interview.upload_settled (Some "s1") 0
                           (Interview.Json 200 "saved")]))
      by (repeat constructor; discriminate).
    pose proof (first_interview_keeps_the_order _ _ _ _ _ _ _ Hes Hrun H) as [Hr _].
    vm_compute in Hrun. injection Hrun as <-.
    vm_compute in H. injection H as <-.
    split; [vm_compute; reflexivity |]. split; [vm_compute; reflexivity |].
    exact Hr.
  - vm_compute in Hrun. injection Hrun as <-. vm_compute in H. discriminate H.
Defined.

Section InterviewHistory.

Import Interview.




End InterviewHistory.



(** X12.  The progress figure.  Whatever has happened since the component
    was mounted, the figure is a multiple of 5 between 0 and 100; it is at
    most 90 while the finalize request is pending, which is the only time
    the progress timer runs; and the results page is shown at 100 only. *)
Theorem progress_figure
    (user_name user_email : string) (st : storage)
    (es : list Interview.event) (s : Interview.state) :
  Interview.run es (Interview.initial user_name user_email st) = Some s ->
  ((∃ k, Interview.processingProgress s = k * 5 ∧ k <= 20)
   ∧ (Interview.progressInterval s = true -> is_Some (Interview.finalizing s))
   ∧ (is_Some (Interview.finalizing s) -> Interview.processingProgress s <= 90)
   ∧ (Interview.step s = Interview.results ->
      Interview.processingProgress s = 100))%nat.
Proof.
  intros H.
  pose proof (progress_run es _ s (pages_ok_initial user_name user_email st)) as Hrun.
  destruct Hrun as (? & ? & ? & _ & ?); [| exact H | done].
  cbn. split; [exists 0%nat; split; [done | lia] |].
  repeat split; try done; by intros [? ?].
Qed.

(** The results page of a finished interview. *)
Lemma progress_figure_witness :
  ∃ s, Interview.run Samples.one_question_finished Samples.mounted = Some s
       ∧ Interview.step s = Interview.results
       ∧ Interview.processingProgress s = 100%nat.
Proof.
  destruct (Interview.run Samples.one_question_finished Samples.mounted)
    as [s |] eqn:Hrun; [| vm_compute in Hrun; discriminate Hrun].
  exists s. split; [done |].
  assert (Hstep : Interview.step s = Interview.results)
    by (vm_compute in Hrun; injection Hrun as <-; reflexivity).
  split; [done |].
  exact (proj2 (proj2 (proj2 (progress_figure _ _ _ _ _ Hrun))) Hstep).
Defined.

Section InterviewRecorder.

Import Interview.



End InterviewRecorder.



Section InterviewSessions.

Import Interview.

Lemma addressed_snoc l e :
  addressed (l ++ [e])
  = addressed l
    ++ match e with
       | POST_upload_video sid _ _
       | GET_acoustic_features sid _
       | POST_finalize sid => [sid]
       | _ => []
       end.
Proof. unfold addressed. rewrite omap_app. by destruct e. Qed.

Lemma elem_of_remove_first {A} `{EqDecision A} (x y : A) (l : list A) :
  x ∈ remove_first y l -> x ∈ l.
Proof.
  induction l as [| z l IH]; cbn; [done |].
  destruct (decide (y = z)); rewrite ?elem_of_cons; intuition.
Qed.

Lemma sessions_handle l e s s' :
  pages_ok s -> sessions_among l s ->
  handle e s = Some s' ->
  sessions_among (l ++ received [e]) s'.
Proof.
  unfold pages_ok, sessions_among.
  intros (Hg & Ht & Hf) (Hsid & Hrec & Hup & Htm & Hlog) H.
  pose proof addressed_snoc as Hsnoc.
  set (adr := addressed) in *. clearbody adr.
  destruct e; run_handler H.
  all: rewrite ?app_nil_r.
  all: repeat split; intros.
  all: repeat match goal with
              | H : _ ∈ remove_first _ _ |- _ => apply elem_of_remove_first in H
              | H : _ ∈ ?f (_ ++ [_]) |- _ => rewrite Hsnoc in H; cbn in H
              | H : _ ∈ _ ++ _ |- _ => apply elem_of_app in H as [H | H]
              | H : _ ∈ [_] |- _ => apply list_elem_of_singleton in H
              | H : _ ∈ [] |- _ => by apply elem_of_nil in H
              | H : Some _ = Some _ |- _ => injection H as H
              | H : (_, _) = (_, _) |- _ => injection H as H
              end;
       subst; cbn in *.
  all: try (rewrite elem_of_app; first [ by left; eauto | by right; left ]).
  all: eauto.
  destruct (Ht eq_refl) as [-> _]. by apply Hsid.
Qed.

Lemma run_snoc es e s :
  run (es ++ [e]) s = run es s ≫= handle e.
Proof.
  revert s. induction es as [| e' es IH]; intros s; cbn.
  - by destruct (handle e s).
  - destruct (handle e' s) as [s1 |]; [apply IH | done].
Qed.

Lemma received_snoc es e : received (es ++ [e]) = received es ++ received [e].
Proof. unfold received. by rewrite omap_app. Qed.

Lemma sessions_run n em st es s :
  run es (initial n em st) = Some s ->
  pages_ok s ∧ sessions_among (received es) s.
Proof.
  revert s. induction es as [| e es IH] using rev_ind; intros s H.
  - cbn in H. injection H as <-. split; [apply pages_ok_initial |].
    unfold sessions_among; cbn. repeat split; try done.
    all: intros; by apply elem_of_nil in H.
  - rewrite run_snoc in H.
    destruct (run es (initial n em st)) as [s1 |]; [| done]. cbn in H.
    destruct (IH s1 eq_refl) as [Hp Hs]. split; [by eapply pages_ok_handle |].
    rewrite received_snoc. by eapply sessions_handle.
Qed.

End InterviewSessions.

(** X14.  Requests go to the sessions that the replies named.  Whatever has
    happened since the component was mounted, every upload, every request
    for acoustic features and every finalize request carries a session id
    that a reply to a question request brought (its [session_id], given or
    not); so when every such reply named a session, no request goes out
    without one. *)
Theorem requests_go_to_named_sessions
    (user_name user_email : string) (st : storage)
    (es : list Interview.event) (s : Interview.state) :
  Interview.run es (Interview.initial user_name user_email st) = Some s ->
  Forall (λ sid, sid ∈ Interview.received es) (Interview.addressed (Interview.log s))
  ∧ (Forall is_Some (Interview.received es) ->
     Forall is_Some (Interview.addressed (Interview.log s))).
Proof.
  intros Hrun.
  destruct (sessions_run _ _ _ _ _ Hrun) as (_ & _ & _ & _ & _ & Hlog).
  assert (Hall : Forall (λ sid, sid ∈ Interview.received es)
                   (Interview.addressed (Interview.log s)))
    by (apply Forall_forall; intros sid Hin; by apply Hlog).
  split; [exact Hall |].
  intros Hnamed. rewrite Forall_forall in Hnamed.
  eapply Forall_impl; [exact Hall |]. intros sid Hin. by apply Hnamed.
Qed.

(** The first interview: one reply, naming s1; the upload and the finalize
    request both go to s1. *)
Lemma requests_go_to_named_sessions_witness :
  ∃ s,
    Interview.run Samples.one_question_answered Samples.mounted = Some s
    ∧ Interview.received Samples.one_question_answered = [Some "s1"]
    ∧ Interview.addressed (Interview.log s) = [Some "s1"; Some "s1"]
    ∧ Forall is_Some (Interview.addressed (Interview.log s)).
Proof.
  destruct (Interview.run Samples.one_question_answered Samples.mounted)
    as [s |] eqn:Hrun; [| vm_compute in Hrun; discriminate Hrun].
  exists s. split; [done |].
  destruct (requests_go_to_named_sessions _ _ _ _ _ Hrun) as [_ Hnamed].
  assert (Hrec : Interview.received Samples.one_question_answered = [Some "s1"])
    by (vm_compute; reflexivity).
  split; [exact Hrec |]. split.
  - vm_compute in Hrun. by injection Hrun as <-.
  - apply Hnamed. rewrite Hrec. by repeat constructor.
Defined.

(** ** AnalysisDashboard.js: the overview against the tabs *)

Section OverviewFacts.

Import Analysis.

Lemma filter_imap_length {A B} (P : B -> Prop) `{∀ x, Decision (P x)}
    (Q : A -> Prop) `{∀ x, Decision (Q x)} (f : nat -> A -> B) (l : list A) :
  (∀ i x, P (f i x) ↔ Q x) ->
  length (filter P (imap f l)) = length (filter Q l).
Proof.
  revert f. induction l as [| x l IH]; intros f Hf; [done |].
  cbn [imap]. rewrite !filter_cons.
  destruct (decide (P (f 0%nat x))) as [Hp | Hp], (decide (Q x)) as [Hq | Hq];
    cbn [length]; try (by rewrite (IH (f ∘ S)); [| intros; apply Hf]).
  - destruct Hq. by apply (Hf 0%nat).
  - destruct Hp. by apply Hf.
Qed.

Lemma status_icon_check {A} (a : option A) : status_icon a = CheckCircle ↔ is_Some a.
Proof. destruct a; cbn; split; try done; by intros [? ?]. Qed.

Lemma status_icon_alert {A} (a : option A) : status_icon a = AlertCircle ↔ a = None.
Proof. by destruct a. Qed.

Lemma speech_tab_missing (d : analysisData) (i : nat) :
  renderSpeechAnalysis (Some d) i = Returned not_available
  ↔ (question_analyses d !! i) ≫= speech_analysis = None.
Proof.
  unfold renderSpeechAnalysis, currentQuestion. cbn.
  destruct (question_analyses d !! i ≫= speech_analysis) as [a |]; [| done].
  by destruct (plot (visualization a)).
Qed.

Lemma video_tab_missing (d : analysisData) (i : nat) :
  renderVideoAnalysis (Some d) i = Returned not_available
  ↔ (question_analyses d !! i) ≫= video_analysis = None.
Proof.
  unfold renderVideoAnalysis, currentQuestion. cbn.
  destruct (question_analyses d !! i ≫= video_analysis) as [a |]; [| done].
  by destruct (plot (visualization a)).
Qed.

End OverviewFacts.

(** X15.  The overview agrees with the tabs.  The two counts of the
    overview are the numbers of check icons in its status list; the list
    has one row per question, numbered from 1, and the row of the selected
    question, and no other, is highlighted; and a row shows the "missing"
    icon for speech (for video) exactly when the speech (video) tab of that
    question shows its "not available" notice. *)
Theorem overview_agrees_with_the_tabs
    (d : Analysis.analysisData) (selectedQuestion : nat) (o : Analysis.overview) :
  Analysis.renderOverview (Some d) selectedQuestion = Some o ->
  Analysis.speechAnalyzed o
  = length (filter (λ r, Analysis.row_speech r = Analysis.CheckCircle) (Analysis.rows o))
  ∧ Analysis.videoAnalyzed o
    = length (filter (λ r, Analysis.row_video r = Analysis.CheckCircle) (Analysis.rows o))
  ∧ length (Analysis.rows o) = Analysis.totalQuestions o
  ∧ ∀ i r,
      Analysis.rows o !! i = Some r ->
      Analysis.row_number r = (i + 1)%nat
      ∧ (Analysis.row_selected r = true ↔ i = selectedQuestion)
      ∧ (Analysis.row_speech r = Analysis.AlertCircle
         ↔ Analysis.renderSpeechAnalysis (Some d) i = Returned Analysis.not_available)
      ∧ (Analysis.row_video r = Analysis.AlertCircle
         ↔ Analysis.renderVideoAnalysis (Some d) i = Returned Analysis.not_available).
Proof.
  intros H. injection H as <-. cbn.
  split; [| split; [| split]].
  - symmetry. apply filter_imap_length. intros i q. cbn. apply status_icon_check.
  - symmetry. apply filter_imap_length. intros i q. cbn. apply status_icon_check.
  - apply length_imap.
  - intros i r Hr. rewrite list_lookup_imap in Hr.
    destruct (Analysis.question_analyses d !! i) as [q |] eqn:Hq; [| done].
    injection Hr as <-. cbn. split; [done |]. split.
    + rewrite bool_decide_eq_true. split; by intros ->.
    + rewrite speech_tab_missing, video_tab_missing, Hq. cbn.
      split; apply status_icon_alert.
Qed.

(** Three questions, the third never uploaded, the second one selected. *)
Lemma overview_agrees_with_the_tabs_witness :
  ∃ o, Analysis.renderOverview (Some Samples.two_of_three) 1 = Some o
       ∧ Analysis.speechAnalyzed o
         = length (filter (λ r, Analysis.row_speech r = Analysis.CheckCircle)
                     (Analysis.rows o)).
Proof.
  destruct (Analysis.renderOverview (Some Samples.two_of_three) 1) as [o |] eqn:H;
    [| discriminate H].
  exists o. split; [done |].
  exact (proj1 (overview_agrees_with_the_tabs _ _ _ H)).
Defined.

(** ** The overview dashboard's statistics *)

Section RecentFacts.

Import Dashboard.

Lemma recentInterviews_length (h : list history_entry) :
  length (recentInterviews h) = Nat.min 5 (length h).
Proof. unfold recentInterviews. rewrite length_rev, length_drop. lia. Qed.

Lemma recentInterviews_lookup (h : list history_entry) (i : nat) :
  (i < Nat.min 5 (length h))%nat ->
  recentInterviews h !! i = h !! (length h - 1 - i)%nat.
Proof.
  intros Hi. unfold recentInterviews.
  rewrite rev_alt. change (rev_append ?l []) with (reverse l).
  rewrite reverse_lookup by (rewrite length_drop; lia).
  rewrite lookup_drop, length_drop. f_equal. lia.
Qed.

End RecentFacts.

(** X16.  The recent interviews of the overview dashboard are the last
    five entries of the history (all of them when there are fewer), newest
    first: entry [i] of the list is entry [length - 1 - i] of the history.
    The total on the first card counts the whole history, so the list is
    never longer than the total says. *)
Theorem recent_interviews_newest_first (s : Dashboard.state) :
  let h := Dashboard.interviewHistory s in
  let '(stats, recent) := Dashboard.view s in
  Dashboard.totalInterviews stats = length h
  ∧ length recent = Nat.min 5 (Dashboard.totalInterviews stats)
  ∧ (∀ i, (i < length recent)%nat -> recent !! i = h !! (length h - 1 - i)%nat)
  ∧ (Dashboard.averageScore stats = None ↔ h = [])
  ∧ (Dashboard.averageScore stats = None ↔ recent = []).
Proof.
  unfold Dashboard.view. cbv beta iota zeta.
  unfold Dashboard.computeStats.
  cbn [Dashboard.totalInterviews Dashboard.averageScore].
  split; [done |]. split; [apply recentInterviews_length |]. split; [| split].
  - intros i Hi. rewrite recentInterviews_length in Hi.
    by apply recentInterviews_lookup.
  - by destruct (Dashboard.interviewHistory s).
  - pose proof (recentInterviews_length (Dashboard.interviewHistory s)) as Hlen.
    destruct (Dashboard.interviewHistory s) as [| e l]; [done |].
    change (0 <? length (e :: l))%nat with true. cbv iota.
    split; [done |]. intros Hnil. rewrite Hnil in Hlen. cbn in Hlen. lia.
Qed.

(** ** From the interview to the session dashboard *)

Section ClosureFacts.

Import Interview.

Lemma closure_handle e s s' :
  pages_ok s ->
  (∀ c, finalizing s = Some c ->
        fc_sessionId c = sessionId s
        ∧ fc_position c = position (form_data s)
        ∧ fc_questions c = length (questions s)
        ∧ dom (fc_acousticData c) ⊆ dom (acousticData s)) ->
  handle e s = Some s' ->
  ∀ c, finalizing s' = Some c ->
       fc_sessionId c = sessionId s'
       ∧ fc_position c = position (form_data s')
       ∧ fc_questions c = length (questions s')
       ∧ dom (fc_acousticData c) ⊆ dom (acousticData s').
Proof.
  unfold pages_ok. intros (Hg & Ht & Hf) Hc H.
  destruct e; run_handler H; intros c' Hc'; simplify_eq; try done;
    try (by apply Hc).
  all: try (exfalso; use_facts; congruence).
  all: destruct (Hc _ eq_refl) as (? & ? & ? & ?); repeat split; try done.
  rewrite dom_insert. by apply union_subseteq_r'.
Qed.

Lemma closure_run n em st es s :
  run es (initial n em st) = Some s ->
  pages_ok s
  ∧ ∀ c, finalizing s = Some c ->
         fc_sessionId c = sessionId s
         ∧ fc_position c = position (form_data s)
         ∧ fc_questions c = length (questions s)
         ∧ dom (fc_acousticData c) ⊆ dom (acousticData s).
Proof.
  revert s. induction es as [| e es IH] using rev_ind; intros s H.
  - cbn in H. injection H as <-. split; [apply pages_ok_initial | done].
  - rewrite run_snoc in H.
    destruct (run es (initial n em st)) as [s1 |]; [| done]. cbn in H.
    destruct (IH s1 eq_refl) as [Hp Hs]. split; [by eapply pages_ok_handle |].
    by eapply closure_handle.
Qed.

End ClosureFacts.

(** X17.  The interview that was just finished heads the session dashboard.
    Let the key ['sessionHistory'] hold a history (or be absent: the empty
    history), which is what the session dashboard loads before.  When the
    reply to the finalize request arrives, what the dashboard loads
    afterwards is that history with one entry in front; the entry is the
    first of its recent sessions, followed by the two most recent of the
    old ones, and it describes the interview on show: its session, the
    position of the form, the number of questions, the time of the reply,
    and acoustic data for questions that have acoustic data on the page. *)
Theorem finished_interview_heads_the_dashboard
    (user_name user_email : string) (st : storage)
    (es : list Interview.event) (s s' : Interview.state)
    (now : Z) (status : nat) (data : string)
    (h old : list sessionData) :
  Interview.run es (Interview.initial user_name user_email st) = Some s ->
  Interview.localStorage s !! "sessionHistory" = Some (CSessionHistory h)
  ∨ Interview.localStorage s !! "sessionHistory" = None ∧ h = [] ->
  Interview.handle
    (Interview.finalize_settled now (Interview.Json status data)) s = Some s' ->
  SessionDashboard.loadSessionHistory (Interview.localStorage s) old = Some h
  ∧ ∃ entry,
      SessionDashboard.loadSessionHistory (Interview.localStorage s') old
      = Some (entry :: h)
      ∧ SessionDashboard.recentSessions (entry :: h) = entry :: take 2 h
      ∧ sd_sessionId entry = Interview.sessionId s
      ∧ sd_position entry = Interview.position (Interview.form_data s)
      ∧ sd_questions entry = length (Interview.questions s)
      ∧ sd_timestamp entry = now
      ∧ dom (sd_acousticData entry) ⊆ dom (Interview.acousticData s).
Proof.
  intros Hrun Hcell H.
  assert (Hread : Interview.readSessionHistory (Interview.localStorage s)
                  = Returned h).
  { unfold Interview.readSessionHistory.
    destruct Hcell as [-> | [-> ->]]; reflexivity. }
  split.
  { unfold SessionDashboard.loadSessionHistory.
    destruct Hcell as [-> | [-> ->]]; reflexivity. }
  destruct (closure_run _ _ _ _ _ Hrun) as [_ Hc].
  unfold Interview.handle in H.
  destruct (Interview.finalizing s) as [c |] eqn:Hfin; [| done].
  destruct (Hc c eq_refl) as (Hsid & Hpos & Hqs & Hac).
  injection H as <-. unfold Interview.finalizeInterview_settled.
  clear Hcell.
  destruct s. cbn -[Interview.readSessionHistory] in *. rewrite Hread.
  cbn -[Interview.readSessionHistory].
  eexists. split.
  { unfold SessionDashboard.loadSessionHistory. by rewrite lookup_insert_eq. }
  by repeat split.
Qed.

(** An interview of one question on a store that holds the session of an
    earlier interview: the dashboard then lists the new session first and
    the earlier one second. *)
Lemma finished_interview_heads_the_dashboard_witness :
  ∃ s s',
    Interview.run Samples.one_question_answered Samples.mounted_again = Some s
    ∧ Interview.handle
        (Interview.finalize_settled 1700000100000 (Interview.Json 200 "done")) s
      = Some s'
    ∧ SessionDashboard.loadSessionHistory (Interview.localStorage s) []
      = Some [Samples.earlier_session]
    ∧ SessionDashboard.recentSessions
        <$> SessionDashboard.loadSessionHistory (Interview.localStorage s') []
      = Some [ {| sd_sessionId := Some "s1"; sd_position := "Engineer";
                  sd_timestamp := 1700000100000; sd_questions := 1;
                  sd_acousticData := ∅ |};
               Samples.earlier_session ].
Proof.
  destruct (Interview.run Samples.one_question_answered Samples.mounted_again)
    as [s |] eqn:Hrun; [| vm_compute in Hrun; discriminate Hrun].
  destruct (Interview.handle
              (Interview.finalize_settled 1700000100000 (Interview.Json 200 "done")) s)
    as [s' |] eqn:H.
  - assert (Hcell : Interview.localStorage s !! "sessionHistory"
                    = Some (CSessionHistory [Samples.earlier_session]))
      by (vm_compute in Hrun; injection Hrun as <-; vm_compute; reflexivity).
    destruct (finished_interview_heads_the_dashboard _ _ _ _ _ _ _ _ _ _ []
                Hrun (or_introl Hcell) H)
      as (Hbefore & entry & Hload & _ & Hsid & Hpos & Hqs & Hnow & Hdom).
    exists s, s'. split; [done |]. split; [done |]. split; [exact Hbefore |].
    vm_compute in Hrun. injection Hrun as <-.
    vm_compute in H. injection H as <-.
    vm_compute. reflexivity.
  - vm_compute in Hrun. injection Hrun as <-. vm_compute in H. discriminate H.
Defined.

(** ** The recording timer *)

Section FormatTimeFacts.

Import Interview.

(** A number below sixty, padded: its tens digit, then its units digit. *)
Lemma two_digits (r : nat) :
  (r < 60)%nat ->
  padStart2 (pretty r)
  = pretty (r / 10)%nat +:+ pretty (r mod 10)%nat.
Proof.
  intros Hr.
  do 60 (destruct r as [| r]; [vm_compute; reflexivity |]). lia.
Qed.

End FormatTimeFacts.

(** X18.  The recording time is shown as minutes, a colon and exactly two
    digits of seconds: the tens and the units of the seconds that remain
    after the whole minutes. *)
Theorem formatTime_shows_two_digits (seconds : nat) :
  Interview.formatTime seconds
  = pretty (seconds / 60)%nat +:+ ":"
    +:+ pretty (seconds mod 60 / 10)%nat +:+ pretty (seconds mod 60 mod 10)%nat
  ∧ (seconds mod 60 / 10 < 6)%nat
  ∧ (seconds mod 60 mod 10 < 10)%nat.
Proof.
  pose proof (Nat.mod_upper_bound seconds 60 ltac:(lia)) as Hr.
  unfold Interview.formatTime. rewrite two_digits by done.
  split; [done |]. split.
  - apply Nat.Div0.div_lt_upper_bound. lia.
  - apply Nat.mod_upper_bound. lia.
Qed.
